(** * user_management_system.py: a shallow embedding and its properties

    The program is a single Python module: three decorators
    ([log_execution], [time_execution], [require_admin]), an abstract class
    [User] with the concrete subclasses [AdminUser] and [RegularUser], a
    repository with a generator method, and the helper [find_user].

    Python code is embedded as functions in a small effect monad [Py]:
    a computation reads and updates the interpreter state ([world]),
    appends lines to the console, and either returns a value or raises an
    exception.

    - [User] instances are mutable and shared, so they live on a heap and
      values hold references to them.
    - The class attribute [User.active_user_count] is a field of the state.
    - A generator is a frame in the state that [next] advances.
    - Identifiers are Python integers, modelled as [Z].
    - Strings are sequences of characters with code points below U+0100.
    - The wall clock is a parameter ([WallClock]): its successive readings
      and the formatting of a difference of two readings.

    The first part embeds what the decorators, the [User] classes, the
    repository and [find_user] need; the second part adds [__repr__], the
    configuration holder and the driver [main]. *)

From Stdlib Require Import ZArith String Ascii List Lia Permutation.
From Stdlib Require DecimalString DecimalPos.
From stdpp Require Import base list strings.

Open Scope string_scope.
Open Scope list_scope.
Open Scope Z_scope.

(** ** Data *)

(** The two concrete classes. [User] itself is abstract ([get_role] is an
    [abstractmethod]), so it has no instances and is not a value of this type. *)
Inductive py_class := AdminUser | RegularUser.

(** The instance attributes set by [User.__init__], with the class of the
    instance. *)
Record user := mk_user {
  cls : py_class;
  user_id : Z;
  name : string;
  email : string;
  active : bool
}.

(** Python values that the modelled functions receive and return. A user is
    held by reference: [VUser r] is the r-th object allocated on the heap. *)
Inductive value :=
| VNone
| VBool (b : bool)
| VInt (n : Z)
| VStr (s : string)
| VUser (ref : nat).

(** [UserRepository]: the [users] attribute is the list passed to [__init__]. *)
Record UserRepository := mk_repo { users : list value }.

(** The frame of a generator made by [stream_users]: not started yet (the
    body has not run, so [self.users] has not been read), suspended at the
    [yield] with the list iterator of the [for] loop (the list and the index
    of the next element), or finished. *)
Inductive generator :=
| GenCreated (self : UserRepository)
| GenSuspended (l : list value) (i : nat)
| GenFinished.

(** The interpreter state: allocated [User] instances, the class attribute
    [User.active_user_count], the number of readings of the wall clock taken
    so far, and the generator frames. *)
Record world := mk_world {
  heap : list user;
  active_user_count : Z;
  clock : nat;
  frames : list generator
}.

(** The state of the module right after it is loaded:
    [active_user_count = 0] and nothing is allocated. *)
Definition initial_world : world := mk_world [] 0 0%nat [].

(** ** Effects *)

Inductive exn :=
| PermissionError (msg : string)
| ValueError
| AttributeError
| TypeError
| StopIteration.

(** How a computation ends: with a value, with an exception, or [Stuck] on
    a reference to an object that was never allocated (no Python program
    reaches this: references come from allocation only). *)
Inductive result (A : Type) :=
| Ok (a : A)
| Raise (e : exn)
| Stuck.
Arguments Ok {A} a.
Arguments Raise {A} e.
Arguments Stuck {A}.

(** A computation maps the state before to the outcome, the state after and
    the lines it printed. The console is write-only for the program, so it
    is an output, not a part of [world]. *)
Definition Py (A : Type) : Type := world -> result A * world * list string.

#[export] Instance Py_ret : MRet Py := fun A a w => (Ok a, w, []).

#[export] Instance Py_bind : MBind Py := fun A B k m w =>
  match m w with
  | (Ok a, w1, o1) => let '(r, w2, o2) := k a w1 in (r, w2, o1 ++ o2)
  | (Raise e, w1, o1) => (Raise e, w1, o1)
  | (Stuck, w1, o1) => (Stuck, w1, o1)
  end.

#[export] Instance Py_throw : MThrow exn Py := fun A e w => (Raise e, w, []).

Definition stuck {A} : Py A := fun w => (Stuck, w, []).

(** [print(line)] *)
Definition print (line : string) : Py unit := fun w => (Ok tt, w, [line]).

Definition get_world : Py world := fun w => (Ok w, w, []).
Definition put_world (w' : world) : Py unit := fun _ => (Ok tt, w', []).

(** ** Attribute access *)

(** The reference held by a value; a value that is not a [User] instance has
    none of the attributes of one, and reading one raises [AttributeError]. *)
Definition ref_of (v : value) : Py nat :=
  match v with
  | VUser r => mret r
  | _ => mthrow AttributeError
  end.

Definition load (r : nat) : Py user := fun w =>
  match heap w !! r with
  | Some o => (Ok o, w, [])
  | None => (Stuck, w, [])
  end.

Definition deref (v : value) : Py user := r ← ref_of v; load r.

Definition set_heap (h : list user) (w : world) : world :=
  mk_world h (active_user_count w) (clock w) (frames w).
Definition set_active_user_count (n : Z) (w : world) : world :=
  mk_world (heap w) n (clock w) (frames w).
Definition set_clock (c : nat) (w : world) : world :=
  mk_world (heap w) (active_user_count w) c (frames w).
Definition set_frames (fs : list generator) (w : world) : world :=
  mk_world (heap w) (active_user_count w) (clock w) fs.

Definition set_active (b : bool) (o : user) : user :=
  mk_user (cls o) (user_id o) (name o) (email o) b.

(** ** Builtins used by the module *)

(** [needle in s] for a one-character [needle]. *)
Fixpoint str_contains (needle : ascii) (s : string) : bool :=
  match s with
  | EmptyString => false
  | String c rest => if Ascii.eqb c needle then true else str_contains needle rest
  end.

(** [s.split(sep)] for a one-character [sep]: the fields between the
    occurrences of [sep], so one field more than there are separators. *)
Fixpoint split (sep : ascii) (s : string) : list string :=
  match s with
  | EmptyString => [EmptyString]
  | String c rest =>
      if Ascii.eqb c sep then EmptyString :: split sep rest
      else match split sep rest with
           | field :: fields => String c field :: fields
           | [] => [String c EmptyString]
           end
  end.

(** [int(s)] in base 10. The text is optional whitespace, an optional sign,
    decimal digits with single underscores allowed between digits, optional
    whitespace. Below U+0100 the whitespace characters are U+0009 to U+000D,
    U+0020, U+0085 and U+00A0, and the decimal digits are "0" to "9". A text
    with more digits than the interpreter's limit is refused. *)
Definition is_space (c : ascii) : bool :=
  let n := nat_of_ascii c in
  ((9 <=? n)%nat && (n <=? 13)%nat) || (n =? 32)%nat || (n =? 133)%nat || (n =? 160)%nat.

Definition digit_value (c : ascii) : option Z :=
  let n := nat_of_ascii c in
  if ((48 <=? n)%nat && (n <=? 57)%nat)%bool then Some (Z.of_nat n - 48) else None.

Fixpoint skip_spaces (s : string) : string :=
  match s with
  | String c rest => if is_space c then skip_spaces rest else s
  | EmptyString => EmptyString
  end.

Inductive scan_state := AtStart | AfterDigit | AfterUnderscore.

(** The digit scanner: the value read so far and the unread rest, or [None]
    on a leading, doubled or trailing underscore or when no digit is read. *)
Fixpoint scan_digits (st : scan_state) (acc : Z) (s : string) : option (Z * string) :=
  let stop := match st with AfterDigit => Some (acc, s) | _ => None end in
  match s with
  | EmptyString => stop
  | String c rest =>
      match digit_value c with
      | Some d => scan_digits AfterDigit (10 * acc + d) rest
      | None =>
          if Ascii.eqb c "_" then
            match st with
            | AfterDigit => scan_digits AfterUnderscore acc rest
            | _ => None
            end
          else stop
      end
  end.

Definition read_sign (s : string) : Z * string :=
  match s with
  | String c rest =>
      if Ascii.eqb c "+" then (1, rest)
      else if Ascii.eqb c "-" then (-1, rest)
      else (1, s)
  | EmptyString => (1, s)
  end.

(** The integer a text denotes, whatever the number of its digits. *)
Definition int_of_text (s : string) : option Z :=
  let '(k, s2) := read_sign (skip_spaces s) in
  match scan_digits AtStart 0 s2 with
  | Some (n, rest) =>
      match skip_spaces rest with
      | EmptyString => Some (k * n)
      | _ => None
      end
  | None => None
  end.

(** The limit of CPython on the digits of an integer that [int] reads from a
    text or [str] writes to one ([sys.int_info.default_max_str_digits], in
    force unless the interpreter is set otherwise): beyond it both raise
    [ValueError]. Leading zeros count, underscores, sign and whitespace do
    not. *)
Definition max_str_digits : nat := 4300.

(** The digits in a text. In a text that denotes an integer they are the
    digits of the number. *)
Fixpoint digit_count (s : string) : nat :=
  match s with
  | EmptyString => O
  | String c rest =>
      match digit_value c with
      | Some _ => S (digit_count rest)
      | None => digit_count rest
      end
  end.

Definition py_int (s : string) : option Z :=
  if (digit_count s <=? max_str_digits)%nat then int_of_text s else None.

(** ** class User *)

Definition get_role_of (c : py_class) : string :=
  match c with
  | AdminUser => "ADMIN"
  | RegularUser => "REGULAR"
  end.

(** [self.get_role()], dispatched on the class of [self]. *)
Definition get_role (self : value) : Py string :=
  o ← deref self; mret (get_role_of (cls o)).

Module User.

(** [cls(user_id, name, email)]: allocate the instance and run [__init__]. *)
Definition __init__ (c : py_class) (uid : Z) (nm em : string) : Py value :=
  w ← get_world;
  put_world (set_heap (heap w ++ [mk_user c uid nm em true]) w);;
  w' ← get_world;
  put_world (set_active_user_count (active_user_count w' + 1) w');;
  mret (VUser (length (heap w))).

Definition deactivate (self : value) : Py value :=
  r ← ref_of self;
  o ← load r;
  if active o then
    w ← get_world;
    put_world (set_heap (<[r := set_active false o]> (heap w)) w);;
    w ← get_world;
    put_world (set_active_user_count (active_user_count w - 1) w);;
    mret VNone
  else mret VNone.

Definition from_string (c : py_class) (data : string) : Py value :=
  match split "," data with
  | [uid; nm; em] =>
      match py_int uid with
      | Some n => __init__ c n nm em
      | None => mthrow ValueError
      end
  | _ => mthrow ValueError
  end.

Definition is_valid_email (em : string) : bool :=
  str_contains "@" em && str_contains "." em.

Definition __str__ (self : value) : Py string :=
  role ← get_role self;
  o ← deref self;
  mret (role +:+ " User: " +:+ name o).

Definition __len__ (self : value) : Py Z :=
  o ← deref self; mret (Z.of_nat (String.length (name o))).

Definition __eq__ (self other : value) : Py value :=
  a ← deref self;
  b ← deref other;
  mret (VBool (user_id a =? user_id b)).

Definition __lt__ (self other : value) : Py value :=
  a ← deref self;
  b ← deref other;
  mret (VBool (user_id a <? user_id b)).

Definition __call__ (self : value) : Py string :=
  o ← deref self; mret ("Callable User " +:+ name o).

End User.


(** ** Decorators *)

(** A Python function: its [__name__] and what a call does with the
    positional arguments. Keyword arguments are forwarded untouched by every
    wrapper below and are left out. *)
Record pyfunc := mk_func {
  __name__ : string;
  call : list value -> Py value
}.

(** The notice of the logging wrapper: [f"[LOG] Executing {func.__name__}"]. *)
Definition log_line (fname : string) : string := "[LOG] Executing " +:+ fname.

(** [log_execution(enabled)(func)]; [functools.wraps] gives the wrapper the
    name of [func]. *)
Definition log_execution (enabled : bool) (func : pyfunc) : pyfunc :=
  mk_func (__name__ func) (fun args =>
    (if enabled then print (log_line (__name__ func)) else mret tt);;
    call func args).

Definition require_admin (func : pyfunc) : pyfunc :=
  mk_func (__name__ func) (fun args =>
    match args with
    | self :: rest =>
        role ← get_role self;
        if negb (String.eqb role "ADMIN")
        then mthrow (PermissionError "Admin access required")
        else call func (self :: rest)
    | [] => mthrow TypeError
    end).

(** The decorators of the module that take any function. *)
Inductive decorator := LogExecution (enabled : bool) | TimeExecution.

(** The timers and the enabled loggers in a stack. *)
Fixpoint timers (ds : list decorator) : nat :=
  match ds with
  | [] => O
  | TimeExecution :: rest => S (timers rest)
  | LogExecution _ :: rest => timers rest
  end.

Fixpoint loggers (ds : list decorator) : nat :=
  match ds with
  | [] => O
  | LogExecution true :: rest => S (loggers rest)
  | _ :: rest => loggers rest
  end.

(** The wall clock behind [time.time()]: the type of its readings, the
    successive readings, and the text of [f"{stop - start:.4f}"]. *)
Class WallClock := {
  timestamp : Type;
  reading : nat -> timestamp;
  format_elapsed : timestamp -> timestamp -> string
}.

Section Timing.

Context {wall_clock : WallClock}.

Definition time_time : Py timestamp := fun w =>
  (Ok (reading (clock w)), set_clock (S (clock w)) w, []).

(** The notice of the timing wrapper:
    [f"[TIME] {func.__name__} took {time.time() - start:.4f}s"]. *)
Definition time_line (fname : string) (start stop : timestamp) : string :=
  "[TIME] " +:+ fname +:+ " took " +:+ format_elapsed stop start +:+ "s".

Definition time_execution (func : pyfunc) : pyfunc :=
  mk_func (__name__ func) (fun args =>
    start ← time_time;
    result ← call func args;
    stop ← time_time;
    print (time_line (__name__ func) start stop);;
    mret result).

(** A stack of decorators over a function: [@d1 @d2 def f] is [d1 (d2 f)]. *)
Definition decorate (d : decorator) (func : pyfunc) : pyfunc :=
  match d with
  | LogExecution enabled => log_execution enabled func
  | TimeExecution => time_execution func
  end.

Definition decorate_all (ds : list decorator) (func : pyfunc) : pyfunc :=
  fold_right decorate func ds.

(** The notices of [n] nested timers around a call entered when the clock
    had been read [c0] times and left when it had been read [c1] times:
    the outermost timer reads the clock first and prints last. *)
Fixpoint time_lines (fname : string) (n c0 c1 : nat) : list string :=
  match n with
  | O => []
  | S n' => time_lines fname n' (S c0) c1
            ++ [time_line fname (reading c0) (reading (c1 + n'))]
  end.

End Timing.

(** [AdminUser.delete_user]: [@require_admin] over [@log_execution()] over
    the method body. *)
Definition delete_user_body : pyfunc :=
  mk_func "delete_user" (fun args =>
    match args with
    | [self] => print "User deleted";; mret VNone
    | _ => mthrow TypeError
    end).

Definition delete_user : pyfunc :=
  require_admin (log_execution true delete_user_body).

(** ** UserRepository.stream_users *)

Definition stream_users (self : UserRepository) : Py nat :=
  w ← get_world;
  put_world (set_frames (frames w ++ [GenCreated self]) w);;
  mret (length (frames w)).

Definition set_frame (g : nat) (f : generator) : Py unit :=
  w ← get_world; put_world (set_frames (<[g := f]> (frames w)) w).

(** One step of [for user in l: yield user] from index [i] of the list. *)
Definition resume (g : nat) (l : list value) (i : nat) : Py value :=
  match l !! i with
  | Some u => set_frame g (GenSuspended l (S i));; mret u
  | None => set_frame g GenFinished;; mthrow StopIteration
  end.

(** [next(g)] on the generator held at [g]. *)
Definition next (g : nat) : Py value :=
  w ← get_world;
  match frames w !! g with
  | Some (GenCreated self) => resume g (users self) 0
  | Some (GenSuspended l i) => resume g l i
  | Some GenFinished => mthrow StopIteration
  | None => stuck
  end.

(** [k] calls of [next(g)], results and [StopIteration] dropped: a traversal
    left after [k] steps. *)
Fixpoint advance (k : nat) (g : nat) (w : world) : world :=
  match k with
  | O => w
  | S k' => advance k' g (snd (fst (next g w)))
  end.

(** [list(g)]: call [next] until [StopIteration]. [None] when [fuel] calls
    did not reach the end. *)
Fixpoint list_of_generator (fuel : nat) (g : nat) (w : world)
  : option (result (list value) * world * list string) :=
  match fuel with
  | O => None
  | S fuel' =>
      match next g w with
      | (Ok v, w1, o1) =>
          match list_of_generator fuel' g w1 with
          | Some (Ok vs, w2, o2) => Some (Ok (v :: vs), w2, o1 ++ o2)
          | Some (Raise e, w2, o2) => Some (Raise e, w2, o1 ++ o2)
          | Some (Stuck, w2, o2) => Some (Stuck, w2, o1 ++ o2)
          | None => None
          end
      | (Raise StopIteration, w1, o1) => Some (Ok [], w1, o1)
      | (Raise e, w1, o1) => Some (Raise e, w1, o1)
      | (Stuck, w1, o1) => Some (Stuck, w1, o1)
      end
  end.

(** ** find_user *)

(** The [for ... else]: the [else] branch runs when the loop ends without
    [return]; the function then returns [None]. *)
Fixpoint find_user (us : list value) (uid : Z) : Py value :=
  match us with
  | [] => print "User not found";; mret VNone
  | u :: rest =>
      o ← deref u;
      if user_id o =? uid then mret u else find_user rest uid
  end.

(** ** Sequences of constructions and deactivations *)

(** A caller's step: construct a user of either class, or call [deactivate]
    on the instance held at a reference. *)
Inductive op :=
| Construct (c : py_class) (uid : Z) (nm em : string)
| Deactivate (r : nat).

Definition run_op (o : op) : Py value :=
  match o with
  | Construct c uid nm em => User.__init__ c uid nm em
  | Deactivate r => User.deactivate (VUser r)
  end.

Fixpoint run_ops (ops : list op) (w : world) : world :=
  match ops with
  | [] => w
  | o :: rest => run_ops rest (snd (fst (run_op o w)))
  end.

(** The instances that are active. *)
Fixpoint count_active (h : list user) : nat :=
  match h with
  | [] => O
  | o :: rest => if active o then S (count_active rest) else count_active rest
  end.

(** The constructions in a sequence. *)
Fixpoint constructions (ops : list op) : nat :=
  match ops with
  | [] => O
  | Construct _ _ _ _ :: rest => S (constructions rest)
  | Deactivate _ :: rest => constructions rest
  end.

(** The first deactivations in a sequence, read off the sequence alone:
    a [Deactivate r] counts when the instance [r] has been constructed
    ([r] is below [built], the number of instances so far) and has not been
    deactivated before ([r] is not in [seen]). *)
Fixpoint first_deactivations (built : nat) (seen : list nat) (ops : list op) : nat :=
  match ops with
  | [] => O
  | Construct _ _ _ _ :: rest => first_deactivations (S built) seen rest
  | Deactivate r :: rest =>
      if bool_decide (r < built)%nat && negb (bool_decide (r ∈ seen))
      then S (first_deactivations built (r :: seen) rest)
      else first_deactivations built seen rest
  end.

(** What links a state to a sequence read so far: [built] instances exist,
    and the inactive ones are those in [seen]. *)
Definition tracks (w : world) (built : nat) (seen : list nat) : Prop :=
  length (heap w) = built /\
  forall r o, heap w !! r = Some o -> (active o = false <-> r ∈ seen).

(** ** Lists searched by find_user *)

(** [v] is a user whose identifier is not [uid]. *)
Definition other_user (w : world) (uid : Z) (v : value) : Prop :=
  exists r o, v = VUser r /\ heap w !! r = Some o /\ user_id o <> uid.

(** ** Positions of a traversal *)

(** The frame of a generator over the list [l] after [i] calls of [next]. *)
Definition frame_at (self : UserRepository) (i : nat) : generator :=
  match i with
  | O => GenCreated self
  | S _ => if bool_decide (i <= length (users self))%nat
           then GenSuspended (users self) i else GenFinished
  end.

(** ** Integer texts *)

(** What [int] accepts, stated on the text: whitespace, an optional sign,
    digits with single underscores between digits, whitespace; and the
    integer the text denotes. *)
Inductive spaces : string -> Prop :=
| spaces_nil : spaces ""
| spaces_cons c s : is_space c = true -> spaces s -> spaces (String c s).

Inductive digits : string -> Z -> Prop :=
| digits_one c d :
    digit_value c = Some d -> digits (String c "") d
| digits_more s n c d :
    digits s n -> digit_value c = Some d ->
    digits (s +:+ String c "") (10 * n + d)
| digits_underscore s n c d :
    digits s n -> digit_value c = Some d ->
    digits (s +:+ String "_" (String c "")) (10 * n + d).

Inductive sign : string -> Z -> Prop :=
| sign_none : sign "" 1
| sign_plus : sign "+" 1
| sign_minus : sign "-" (-1).

Inductive integer_text : string -> Z -> Prop :=
| integer_text_intro ws1 sg k body n ws2 :
    spaces ws1 -> sign sg k -> digits body n -> spaces ws2 ->
    integer_text (ws1 +:+ sg +:+ body +:+ ws2) (k * n).

(** An integer text that [int] accepts: one within the limit on digits. *)
Definition short_integer_text (s : string) (n : Z) : Prop :=
  integer_text s n /\ (digit_count s <= max_str_digits)%nat.

(** [n] times the character [c]. *)
Fixpoint str_repeat (c : ascii) (n : nat) : string :=
  match n with
  | O => EmptyString
  | S n' => String c (str_repeat c n')
  end.

(** ** Sample states *)

Definition two_users : world :=
  mk_world [mk_user AdminUser 1 "Akash" "akash@test.com" true;
            mk_user RegularUser 1 "Rahul" "rahul@test.com" true;
            mk_user RegularUser 2 "Rahul" "rahul@test.com" false] 2 0 [].

(** Two constructions, then two [deactivate] calls on the first instance. *)
Definition sample_ops : list op :=
  [Construct AdminUser 1 "Akash" "akash@test.com";
   Construct RegularUser 2 "Rahul" "rahul@test.com";
   Deactivate 0; Deactivate 0].

Definition sample_repo : UserRepository := mk_repo [VUser 0; VUser 1].

(** A clock that shows the number of readings taken, and a function that
    prints and then raises. *)
Definition sample_clock : WallClock := {|
  timestamp := nat;
  reading := fun n => n;
  format_elapsed := fun stop start =>
    if (stop - start =? 1)%nat then "1.0000" else "3.0000"
|}.
Definition sample_failing : pyfunc :=
  mk_func "boom" (fun _ => print "before";; mthrow ValueError).
Definition sample_returning : pyfunc :=
  mk_func "answer" (fun _ => print "working";; mret (VInt 42)).

(** A text of three fields whose first is an integer of 4301 digits. *)
Definition long_identifier : string := str_repeat "1" 4301.
Definition long_identifier_text : string := long_identifier +:+ ",a,b".

(** * The rest of the module *)

(** ** More builtins *)

(** The decimal text of an integer: the digits, without leading zeros,
    after a "-" when negative. *)
Definition decimal (n : Z) : string :=
  DecimalString.NilZero.string_of_int (Z.to_int n).

(** [str(n)] for an integer, also inside an f-string: the decimal text, or
    [ValueError] when it has more digits than the limit. *)
Definition py_str (n : Z) : Py string :=
  if (digit_count (decimal n) <=? max_str_digits)%nat
  then mret (decimal n)
  else mthrow ValueError.

(** [print(label, n)] for an integer [n]. [print] writes the label and the
    separating space before it asks for [str(n)]; when that raises, they
    are on the console already, as a line left unfinished. *)
Definition print_int (label : string) (n : Z) : Py unit := fun w =>
  if (digit_count (decimal n) <=? max_str_digits)%nat
  then (Ok tt, w, [label +:+ " " +:+ decimal n])
  else (Raise ValueError, w, [label +:+ " "]).

(** [str(b)] for a boolean. *)
Definition py_str_bool (b : bool) : string := if b then "True" else "False".

(** The occurrences of a character in a text. *)
Fixpoint count_char (c : ascii) (s : string) : nat :=
  match s with
  | EmptyString => O
  | String a rest => if Ascii.eqb a c then S (count_char c rest) else count_char c rest
  end.

(** The value of decimal digits read from the left, after [acc]. *)
Fixpoint uint_value (d : Decimal.uint) (acc : Z) : Z :=
  match d with
  | Decimal.Nil => acc
  | Decimal.D0 l => uint_value l (10 * acc + 0)
  | Decimal.D1 l => uint_value l (10 * acc + 1)
  | Decimal.D2 l => uint_value l (10 * acc + 2)
  | Decimal.D3 l => uint_value l (10 * acc + 3)
  | Decimal.D4 l => uint_value l (10 * acc + 4)
  | Decimal.D5 l => uint_value l (10 * acc + 5)
  | Decimal.D6 l => uint_value l (10 * acc + 6)
  | Decimal.D7 l => uint_value l (10 * acc + 7)
  | Decimal.D8 l => uint_value l (10 * acc + 8)
  | Decimal.D9 l => uint_value l (10 * acc + 9)
  end.

(** ** User.__repr__ *)

(** [self.__class__.__name__] *)
Definition class_name (c : py_class) : string :=
  match c with
  | AdminUser => "AdminUser"
  | RegularUser => "RegularUser"
  end.

Definition __repr__ (self : value) : Py string :=
  o ← deref self;
  s ← py_str (user_id o);
  mret (class_name (cls o) +:+ "(" +:+ s +:+ ", "
        +:+ name o +:+ ", " +:+ email o +:+ ")").

(** ** Config and AppConfig *)

(** The named tuple [Config] and the holder [AppConfig], whose [__init__]
    stores the fixed pair. *)
Record Config := mk_config { app_name : string; version : string }.

Record AppConfig := mk_app_config { config : Config }.

Definition new_AppConfig : AppConfig :=
  mk_app_config (mk_config "UserSystem" "1.0.0").

(** ** The for loop over a generator *)

(** The elements a frame has yet to yield. *)
Definition remaining (f : generator) : nat :=
  match f with
  | GenCreated self => length (users self)
  | GenSuspended l i => (length l - i)%nat
  | GenFinished => O
  end.

(** At most [n] rounds of [for v in g: body(v)]: a round calls [next(g)],
    leaves the loop on [StopIteration] and runs the body otherwise. An
    exception of the body, [StopIteration] too, leaves the loop as an
    exception. *)
Fixpoint for_rounds (n : nat) (g : nat) (body : value -> Py unit) : Py unit :=
  match n with
  | O => stuck
  | S n' => fun w =>
      match next g w with
      | (Ok v, w1, o1) =>
          let '(r, w2, o2) := (body v;; for_rounds n' g body) w1 in
          (r, w2, o1 ++ o2)
      | (Raise StopIteration, w1, o1) => (Ok tt, w1, o1)
      | (Raise e, w1, o1) => (Raise e, w1, o1)
      | (Stuck, w1, o1) => (Stuck, w1, o1)
      end
  end.

(** [for v in g: body(v)]. Every round moves the frame forward, so the
    rounds number at most one more than the elements the frame has left;
    the bound is not reached unless the body rewinds the frame, which no
    Python code can do. *)
Definition for_each (g : nat) (body : value -> Py unit) : Py unit :=
  w ← get_world;
  match frames w !! g with
  | Some f => for_rounds (S (remaining f)) g body
  | None => stuck
  end.

(** [for v in l: body(v)] over a list. *)
Fixpoint for_list (body : value -> Py unit) (l : list value) : Py unit :=
  match l with
  | [] => mret tt
  | v :: rest => body v;; for_list body rest
  end.

(** A loop body that neither reads nor writes the generator frames: run
    with other frames it does the same and leaves those frames. *)
Definition ignores_frames (body : value -> Py unit) : Prop :=
  forall (v : value) (fs : list generator) (w : world),
    body v (set_frames fs w) =
    let '(r, w', o) := body v w in (r, set_frames fs w', o).

(** The body of the loop of [main]: [print("Streamed:", u)]. *)
Definition print_streamed (u : value) : Py unit :=
  s ← User.__str__ u; print ("Streamed: " +:+ s).

(** ** main *)

Section Main.

Context {wall_clock : WallClock}.

(** The body of [main], before [@time_execution]. [print] of a user shows
    its [__str__]; [print] of several values joins their [str] with a
    space. *)
Definition main_body : pyfunc :=
  mk_func "main" (fun args =>
    match args with
    | [] =>
        admin ← User.__init__ AdminUser 1 "Akash" "akash@test.com";
        user ← User.from_string RegularUser "2,Rahul,rahul@test.com";
        s ← User.__str__ admin;
        print s;;
        s ← __repr__ user;
        print s;;
        w ← get_world;
        print_int "Active users:" (active_user_count w);;
        o ← deref user;
        print ("Email valid: " +:+ py_str_bool (User.is_valid_email (email o)));;
        n ← User.__len__ admin;
        print_int "Name length:" n;;
        s ← User.__call__ admin;
        print ("Callable: " +:+ s);;
        g ← stream_users (mk_repo [admin; user]);
        for_each g print_streamed;;
        find_user [admin; user] 99;;
        print ("Config: " +:+ app_name (config new_AppConfig) +:+ " v"
               +:+ version (config new_AppConfig));;
        call delete_user [admin];;
        mret VNone
    | _ => mthrow TypeError
    end).

Definition main : pyfunc := time_execution main_body.

End Main.

(** The two users [main] constructs, and the lines it prints before the
    timing notice when the count of active users was [n] at the start. *)
Definition main_admin : user := mk_user AdminUser 1 "Akash" "akash@test.com" true.
Definition main_user : user := mk_user RegularUser 2 "Rahul" "rahul@test.com" true.

Definition main_lines (n : Z) : list string :=
  ["ADMIN User: Akash";
   "RegularUser(2, Rahul, rahul@test.com)";
   "Active users: " +:+ decimal (n + 2);
   "Email valid: True";
   "Name length: 5";
   "Callable: Callable User Akash";
   "Streamed: ADMIN User: Akash";
   "Streamed: REGULAR User: Rahul";
   "User not found";
   "Config: UserSystem v1.0.0";
   "[LOG] Executing delete_user";
   "User deleted"].

(** ** Comparisons that hold *)

(** The comparison returns [True], changes nothing and prints nothing. *)
Definition holds (m : Py value) (w : world) : Prop :=
  m w = (Ok (VBool true), w, []).

(** ** More sample data *)

Definition sample_gated : pyfunc := require_admin sample_returning.

(** Two requests for the traversal of the same repository. *)
Definition two_streams : world :=
  snd (fst (stream_users sample_repo (snd (fst (stream_users sample_repo two_users))))).

(** * Properties *)

(** ** Running computations *)

Lemma run_bind {A B} (m : Py A) (k : A -> Py B) (w : world) :
  (m ≫= k) w =
  match m w with
  | (Ok a, w1, o1) => let '(r, w2, o2) := k a w1 in (r, w2, o1 ++ o2)
  | (Raise e, w1, o1) => (Raise e, w1, o1)
  | (Stuck, w1, o1) => (Stuck, w1, o1)
  end.
Proof. reflexivity. Qed.

Lemma run_bind_ok {A B} (m : Py A) (k : A -> Py B) (w w1 : world) (a : A) (o1 : list string) :
  m w = (Ok a, w1, o1) ->
  (m ≫= k) w = let '(r, w2, o2) := k a w1 in (r, w2, o1 ++ o2).
Proof. intros H. rewrite run_bind, H. reflexivity. Qed.

Lemma run_bind_raise {A B} (m : Py A) (k : A -> Py B) (w w1 : world) (e : exn) (o1 : list string) :
  m w = (Raise e, w1, o1) -> (m ≫= k) w = (Raise e, w1, o1).
Proof. intros H. rewrite run_bind, H. reflexivity. Qed.

Lemma deref_user (w : world) (r : nat) (o : user) :
  heap w !! r = Some o -> deref (VUser r) w = (Ok o, w, []).
Proof.
  intros H. unfold deref. rewrite run_bind. cbn. unfold load. rewrite H. reflexivity.
Qed.

Lemma deref_non_user (w : world) (v : value) :
  (forall r, v <> VUser r) -> deref v w = (Raise AttributeError, w, []).
Proof.
  intros H. destruct v; try reflexivity. destruct (H ref). reflexivity.
Qed.

Lemma get_role_user (w : world) (r : nat) (o : user) :
  heap w !! r = Some o -> get_role (VUser r) w = (Ok (get_role_of (cls o)), w, []).
Proof.
  intros H. unfold get_role. rewrite (run_bind_ok _ _ _ _ _ _ (deref_user w r o H)).
  reflexivity.
Qed.

(** ** is_valid_email *)

Lemma str_contains_occurs (c : ascii) (s : string) :
  str_contains c s = true <-> exists s1 s2, s = s1 +:+ String c s2.
Proof.
  induction s as [|a s IH]; simpl.
  - split; [discriminate|]. intros ([|? ?] & s2 & H); discriminate.
  - destruct (Ascii.eqb a c) eqn:E.
    + apply Ascii.eqb_eq in E. subst a. split; [|reflexivity].
      intros _. exists EmptyString, s. reflexivity.
    + apply Ascii.eqb_neq in E. rewrite IH. split.
      * intros (s1 & s2 & ->). exists (String a s1), s2. reflexivity.
      * intros ([|b s1] & s2 & H); simpl in H; inversion H; subst.
        -- congruence.
        -- eauto.
Qed.

(** C5. [is_valid_email] is true exactly on the strings in which an "@"
    occurs and a "." occurs; it is true on "a@b.c" and false on "abc" and
    on "a@b". *)
Theorem is_valid_email_iff_at_and_dot :
  (forall em : string,
     User.is_valid_email em = true <->
     (exists s1 s2, em = s1 +:+ String "@" s2) /\
     (exists s1 s2, em = s1 +:+ String "." s2)) /\
  User.is_valid_email "a@b.c" = true /\
  User.is_valid_email "abc" = false /\
  User.is_valid_email "a@b" = false.
Proof.
  split; [|repeat split].
  intros em. unfold User.is_valid_email.
  rewrite andb_true_iff, !str_contains_occurs. reflexivity.
Qed.

(** ** Equality and ordering *)

(** C6. For users [u] and [v] of any classes, names and emails, [u == v] is
    true exactly when the identifiers are equal and [u < v] exactly when the
    identifier of [u] is less than that of [v]; neither changes the state or
    prints. *)
Theorem user_eq_lt_by_identifier
    (w : world) (u v : nat) (a b : user)
    (Hu : heap w !! u = Some a) (Hv : heap w !! v = Some b) :
  User.__eq__ (VUser u) (VUser v) w
    = (Ok (VBool (bool_decide (user_id a = user_id b))), w, []) /\
  User.__lt__ (VUser u) (VUser v) w
    = (Ok (VBool (bool_decide (user_id a < user_id b))), w, []).
Proof.
  unfold User.__eq__, User.__lt__.
  rewrite !(run_bind_ok _ _ _ _ _ _ (deref_user w u a Hu)).
  rewrite !(run_bind_ok _ _ _ _ _ _ (deref_user w v b Hv)).
  cbn. split; do 3 f_equal.
  - destruct (Z.eqb_spec (user_id a) (user_id b)).
    + rewrite bool_decide_eq_true_2; auto.
    + rewrite bool_decide_eq_false_2; auto.
  - destruct (Z.ltb_spec (user_id a) (user_id b)).
    + rewrite bool_decide_eq_true_2; auto.
    + rewrite bool_decide_eq_false_2; auto. lia.
Qed.

Lemma user_eq_lt_by_identifier_witness :
  User.__eq__ (VUser 0) (VUser 1) two_users = (Ok (VBool true), two_users, []) /\
  User.__lt__ (VUser 0) (VUser 2) two_users = (Ok (VBool true), two_users, []).
Proof.
  split.
  - exact (proj1 (user_eq_lt_by_identifier two_users 0 1 _ _ eq_refl eq_refl)).
  - exact (proj2 (user_eq_lt_by_identifier two_users 0 2 _ _ eq_refl eq_refl)).
Defined.

(** C10. [u == v] for a user [u] and a value [v] that is not a user (it has
    no [user_id] attribute) raises [AttributeError]: [__eq__] reads
    [other.user_id] without a type check. *)
Theorem user_eq_non_user_raises
    (w : world) (u : nat) (a : user) (v : value)
    (Hu : heap w !! u = Some a) (Hv : forall r, v <> VUser r) :
  User.__eq__ (VUser u) v w = (Raise AttributeError, w, []).
Proof.
  unfold User.__eq__.
  rewrite (run_bind_ok _ _ _ _ _ _ (deref_user w u a Hu)).
  rewrite (run_bind_raise _ _ _ _ _ _ (deref_non_user w v Hv)).
  reflexivity.
Qed.

Lemma user_eq_non_user_raises_witness :
  User.__eq__ (VUser 0) (VInt 1) two_users = (Raise AttributeError, two_users, []).
Proof.
  apply (user_eq_non_user_raises two_users 0 _ (VInt 1) eq_refl).
  intros r. discriminate.
Defined.

(** ** The gated delete operation *)

(** C2. On an object whose role is not "ADMIN", [delete_user] raises
    [PermissionError] and prints nothing; on an object whose role is
    "ADMIN" it returns and prints the logging notice, then the deletion
    notice. *)
Theorem delete_user_gated
    (w : world) (r : nat) (o : user) (Hr : heap w !! r = Some o) :
  (get_role_of (cls o) <> "ADMIN" ->
   call delete_user [VUser r] w
     = (Raise (PermissionError "Admin access required"), w, [])) /\
  (get_role_of (cls o) = "ADMIN" ->
   call delete_user [VUser r] w
     = (Ok VNone, w, ["[LOG] Executing delete_user"; "User deleted"])).
Proof.
  unfold delete_user. cbn [call require_admin].
  rewrite (run_bind_ok _ _ _ _ _ _ (get_role_user w r o Hr)).
  split; intros H.
  - apply String.eqb_neq in H. rewrite H. reflexivity.
  - rewrite H. reflexivity.
Qed.

Lemma delete_user_gated_witness :
  call delete_user [VUser 1] two_users
    = (Raise (PermissionError "Admin access required"), two_users, []) /\
  call delete_user [VUser 0] two_users
    = (Ok VNone, two_users, ["[LOG] Executing delete_user"; "User deleted"]).
Proof.
  split.
  - apply (proj1 (delete_user_gated two_users 1 _ eq_refl)). discriminate.
  - apply (proj2 (delete_user_gated two_users 0 _ eq_refl)). reflexivity.
Defined.

(** ** The active count *)

Lemma init_run (c : py_class) (uid : Z) (nm em : string) (w : world) :
  User.__init__ c uid nm em w
  = (Ok (VUser (length (heap w))),
     mk_world (heap w ++ [mk_user c uid nm em true])
              (active_user_count w + 1) (clock w) (frames w),
     []).
Proof. reflexivity. Qed.

(** Runs [deactivate] up to the test of [self.active]. *)
Ltac run_deactivate Hr :=
  unfold User.deactivate; rewrite run_bind; cbn [ref_of mret Py_ret];
  rewrite run_bind; unfold load; rewrite Hr.

Lemma deactivate_active (w : world) (r : nat) (o : user) :
  heap w !! r = Some o -> active o = true ->
  User.deactivate (VUser r) w
  = (Ok VNone,
     mk_world (<[r := set_active false o]> (heap w))
              (active_user_count w - 1) (clock w) (frames w),
     []).
Proof. intros Hr Ha. run_deactivate Hr. rewrite Ha. reflexivity. Qed.

Lemma deactivate_inactive (w : world) (r : nat) (o : user) :
  heap w !! r = Some o -> active o = false ->
  User.deactivate (VUser r) w = (Ok VNone, w, []).
Proof. intros Hr Ha. run_deactivate Hr. rewrite Ha. reflexivity. Qed.

Lemma deactivate_unallocated (w : world) (r : nat) :
  heap w !! r = None -> User.deactivate (VUser r) w = (Stuck, w, []).
Proof. intros Hr. run_deactivate Hr. reflexivity. Qed.

Lemma tracks_initial : tracks initial_world 0 [].
Proof.
  split; [reflexivity|]. intros r o H. cbn in H. rewrite lookup_nil in H. discriminate.
Qed.

Lemma tracks_construct w built seen c uid nm em :
  tracks w built seen ->
  (forall r, r ∈ seen -> (r < built)%nat) ->
  tracks (snd (fst (User.__init__ c uid nm em w))) (S built) seen.
Proof.
  intros [Hlen Hact] Hseen. rewrite init_run. unfold tracks. cbn [fst snd heap]. split.
  - rewrite length_app. cbn [length]. lia.
  - intros r o Hr. apply lookup_snoc_Some in Hr as [[Hlt Hr] | [Heq <-]].
    + apply Hact, Hr.
    + cbn. split; [discriminate|].
      intros Hin. apply Hseen in Hin. lia.
Qed.

Lemma tracks_deactivate w built seen r o :
  tracks w built seen ->
  heap w !! r = Some o -> active o = true ->
  tracks (snd (fst (User.deactivate (VUser r) w))) built (r :: seen).
Proof.
  intros [Hlen Hact] Hr Ha. rewrite (deactivate_active w r o Hr Ha). unfold tracks. cbn [fst snd heap]. split.
  - rewrite length_insert. exact Hlen.
  - intros r' o' Hr'. destruct (decide (r = r')) as [<-|Hne].
    + rewrite list_lookup_insert_eq in Hr' by (eapply lookup_lt_Some; eauto).
      inversion Hr'; subst o'. cbn. split; [intros _; left|reflexivity].
    + rewrite list_lookup_insert_ne in Hr' by exact Hne.
      rewrite (Hact r' o' Hr'). rewrite elem_of_cons. split; [tauto|].
      intros [->|H]; [congruence|exact H].
Qed.

Lemma count_run_ops (ops : list op) : forall w built seen,
  tracks w built seen ->
  (forall r, r ∈ seen -> (r < built)%nat) ->
  active_user_count (run_ops ops w)
  = active_user_count w + Z.of_nat (constructions ops)
    - Z.of_nat (first_deactivations built seen ops).
Proof.
  induction ops as [|[c uid nm em|r] ops IH]; intros w built seen Ht Hs; cbn [run_ops run_op].
  - cbn. lia.
  - rewrite (IH _ (S built) seen).
    + rewrite init_run. cbn [fst snd active_user_count constructions first_deactivations]. lia.
    + apply tracks_construct; assumption.
    + intros r Hr. apply Hs in Hr. lia.
  - cbn [constructions first_deactivations].
    destruct (heap w !! r) as [o|] eqn:Hr.
    + assert (Hlt : (r < built)%nat).
      { destruct Ht as [<- _]. eapply lookup_lt_Some; eauto. }
      rewrite (bool_decide_eq_true_2 _ Hlt). cbn [andb].
      destruct (active o) eqn:Ha.
      * assert (Hnot : r ∉ seen).
        { intros Hin. apply (proj2 Ht r o Hr) in Hin. congruence. }
        rewrite (bool_decide_eq_false_2 _ Hnot). cbn [negb].
        rewrite (IH _ built (r :: seen)).
        -- rewrite (deactivate_active w r o Hr Ha). cbn [fst snd active_user_count]. lia.
        -- eapply tracks_deactivate; eauto.
        -- intros r' Hr'. apply elem_of_cons in Hr' as [->|Hr']; auto.
      * assert (Hin : r ∈ seen) by (apply (proj2 Ht r o Hr); exact Ha).
        rewrite (bool_decide_eq_true_2 _ Hin). cbn [negb].
        rewrite (deactivate_inactive w r o Hr Ha). cbn [fst snd].
        apply IH; assumption.
    + assert (Hge : ~ (r < built)%nat).
      { destruct Ht as [<- _]. apply lookup_ge_None in Hr. lia. }
      rewrite (bool_decide_eq_false_2 _ Hge). cbn [andb].
      rewrite (deactivate_unallocated w r Hr). cbn [fst snd].
      apply IH; assumption.
Qed.

Lemma count_active_snoc (h : list user) (o : user) :
  count_active (h ++ [o]) = (count_active h + (if active o then 1 else 0))%nat.
Proof.
  induction h as [|a h IH]; cbn.
  - destruct (active o); reflexivity.
  - rewrite IH. destruct (active a); reflexivity.
Qed.

Lemma count_active_deactivate (h : list user) : forall (r : nat) (o : user),
  h !! r = Some o -> active o = true ->
  S (count_active (<[r := set_active false o]> h)) = count_active h.
Proof.
  induction h as [|a h IH]; intros r o Hr Ha.
  - rewrite lookup_nil in Hr. discriminate.
  - destruct r as [|r]; cbn in Hr |- *.
    + inversion Hr; subst a. rewrite Ha. reflexivity.
    + destruct (active a); [f_equal|]; eapply IH; eauto.
Qed.

Lemma count_is_active_instances (ops : list op) : forall w,
  active_user_count w = Z.of_nat (count_active (heap w)) ->
  active_user_count (run_ops ops w)
  = Z.of_nat (count_active (heap (run_ops ops w))).
Proof.
  induction ops as [|[c uid nm em|r] ops IH]; intros w Hw; cbn [run_ops run_op].
  - exact Hw.
  - apply IH. rewrite init_run. cbn [fst snd heap active_user_count].
    rewrite count_active_snoc. cbn [active]. lia.
  - apply IH. destruct (heap w !! r) as [o|] eqn:Hr.
    + destruct (active o) eqn:Ha.
      * rewrite (deactivate_active w r o Hr Ha). cbn [fst snd heap active_user_count].
        pose proof (count_active_deactivate _ _ _ Hr Ha). lia.
      * rewrite (deactivate_inactive w r o Hr Ha). exact Hw.
    + rewrite (deactivate_unallocated w r Hr). exact Hw.
Qed.

(** C1. After any sequence of constructions and [deactivate] calls from the
    freshly loaded module, the active count is the number of constructions
    minus the number of first deactivations, and is the number of instances
    that are active. From there, a construction of either class adds exactly
    1, [deactivate] on an active instance subtracts exactly 1 and makes it
    inactive, and [deactivate] on an inactive instance changes nothing. *)
Theorem active_count_construct_deactivate (ops : list op) :
  let w := run_ops ops initial_world in
  active_user_count w
    = Z.of_nat (constructions ops) - Z.of_nat (first_deactivations 0 [] ops) /\
  active_user_count w = Z.of_nat (count_active (heap w)) /\
  (forall c uid nm em, exists w',
     User.__init__ c uid nm em w = (Ok (VUser (length (heap w))), w', []) /\
     active_user_count w' = active_user_count w + 1 /\
     heap w' = heap w ++ [mk_user c uid nm em true]) /\
  (forall r o, heap w !! r = Some o -> active o = true -> exists w',
     User.deactivate (VUser r) w = (Ok VNone, w', []) /\
     active_user_count w' = active_user_count w - 1 /\
     heap w' = <[r := set_active false o]> (heap w)) /\
  (forall r o, heap w !! r = Some o -> active o = false ->
     User.deactivate (VUser r) w = (Ok VNone, w, [])).
Proof.
  intros w. repeat split.
  - unfold w. rewrite (count_run_ops ops initial_world 0%nat []).
    + cbn [active_user_count initial_world]. lia.
    + apply tracks_initial.
    + intros r Hr. apply elem_of_nil in Hr. destruct Hr.
  - apply count_is_active_instances. reflexivity.
  - intros c uid nm em. eexists. rewrite init_run. repeat split.
  - intros r o Hr Ha. eexists. rewrite (deactivate_active w r o Hr Ha). repeat split.
  - intros r o. apply deactivate_inactive.
Qed.

Lemma active_count_construct_deactivate_witness :
  active_user_count (run_ops sample_ops initial_world) = 1 /\
  (exists w',
     User.deactivate (VUser 1) (run_ops sample_ops initial_world) = (Ok VNone, w', []) /\
     active_user_count w' = 0) /\
  User.deactivate (VUser 0) (run_ops sample_ops initial_world)
    = (Ok VNone, run_ops sample_ops initial_world, []).
Proof.
  destruct (active_count_construct_deactivate sample_ops) as (H1 & _ & _ & H4 & H5).
  split; [exact H1|]. split.
  - destruct (H4 1%nat _ eq_refl eq_refl) as (w' & Hrun & Hcount & _).
    exists w'. split; [exact Hrun|exact Hcount].
  - exact (H5 0%nat _ eq_refl eq_refl).
Defined.

(** ** find_user *)

Lemma find_user_skip (w : world) (uid : Z) (v : value) (rest : list value) :
  other_user w uid v -> find_user (v :: rest) uid w = find_user rest uid w.
Proof.
  intros (r & o & -> & Hr & Hne). cbn [find_user].
  rewrite (run_bind_ok _ _ _ _ _ _ (deref_user w r o Hr)).
  apply Z.eqb_neq in Hne. rewrite Hne.
  destruct (find_user rest uid w) as [[res w'] out]. reflexivity.
Qed.

(** C7. [find_user] returns the first user of the list whose identifier
    matches, whatever comes after it in the list (later elements are not
    examined, so they may be values that are not users); when every element
    is a user with another identifier, it prints the "User not found" notice
    once and returns [None] without raising. *)
Theorem find_user_first_match_or_notice (w : world) (uid : Z) :
  (forall (pre post : list value) (r : nat) (o : user),
     Forall (other_user w uid) pre ->
     heap w !! r = Some o -> user_id o = uid ->
     find_user (pre ++ VUser r :: post) uid w = (Ok (VUser r), w, [])) /\
  (forall us : list value,
     Forall (other_user w uid) us ->
     find_user us uid w = (Ok VNone, w, ["User not found"])).
Proof.
  split.
  - intros pre post r o Hpre Hr Hid.
    induction Hpre as [|v pre Hv _ IH]; cbn [app].
    + cbn [find_user]. rewrite (run_bind_ok _ _ _ _ _ _ (deref_user w r o Hr)).
      apply Z.eqb_eq in Hid. rewrite Hid. reflexivity.
    + rewrite (find_user_skip w uid v _ Hv). exact IH.
  - intros us Hus. induction Hus as [|v us Hv _ IH].
    + reflexivity.
    + rewrite (find_user_skip w uid v _ Hv). exact IH.
Qed.

Lemma other_user_intro (w : world) (uid : Z) (r : nat) (o : user) :
  heap w !! r = Some o -> user_id o <> uid -> other_user w uid (VUser r).
Proof. intros Hr Hne. exists r, o. auto. Qed.

Lemma find_user_first_match_or_notice_witness :
  find_user [VUser 0; VUser 2; VInt 7; VUser 9] 2 two_users = (Ok (VUser 2), two_users, []) /\
  find_user [VUser 0; VUser 1] 99 two_users = (Ok VNone, two_users, ["User not found"]).
Proof.
  split.
  - eapply (proj1 (find_user_first_match_or_notice two_users 2)
              [VUser 0] [VInt 7; VUser 9] 2%nat).
    + repeat constructor. eapply other_user_intro; [reflexivity|discriminate].
    + reflexivity.
    + reflexivity.
  - apply (proj2 (find_user_first_match_or_notice two_users 99)).
    repeat constructor; (eapply other_user_intro; [reflexivity|discriminate]).
Defined.

(** ** stream_users *)

Lemma set_frames_same (w : world) : set_frames (frames w) w = w.
Proof. destruct w. reflexivity. Qed.

Lemma stream_users_run (self : UserRepository) (w : world) :
  stream_users self w
  = (Ok (length (frames w)), set_frames (frames w ++ [GenCreated self]) w, []).
Proof. reflexivity. Qed.

Lemma resume_run (g : nat) (l : list value) (i : nat) (w : world) :
  resume g l i w =
  match l !! i with
  | Some u => (Ok u, set_frames (<[g := GenSuspended l (S i)]> (frames w)) w, [])
  | None => (Raise StopIteration, set_frames (<[g := GenFinished]> (frames w)) w, [])
  end.
Proof. unfold resume. destruct (l !! i); reflexivity. Qed.

(** A call of [next] at position [i] gives the element at index [i], or
    [StopIteration] past the end, and moves to position [i + 1]. *)
Lemma next_at (self : UserRepository) (g i : nat) (w : world) :
  frames w !! g = Some (frame_at self i) ->
  next g w
  = (match users self !! i with Some u => Ok u | None => Raise StopIteration end,
     set_frames (<[g := frame_at self (S i)]> (frames w)) w, []).
Proof.
  intros Hg.
  assert (Hres : forall j, (j <= length (users self))%nat ->
    resume g (users self) j w
    = (match users self !! j with Some u => Ok u | None => Raise StopIteration end,
       set_frames (<[g := frame_at self (S j)]> (frames w)) w, [])).
  { intros j Hj. rewrite resume_run. cbn [frame_at].
    destruct (users self !! j) as [u|] eqn:Hu.
    - apply lookup_lt_Some in Hu.
      rewrite bool_decide_eq_true_2 by lia. reflexivity.
    - apply lookup_ge_None in Hu.
      rewrite bool_decide_eq_false_2 by lia. reflexivity. }
  unfold next. rewrite run_bind. cbn [get_world].
  destruct i as [|i].
  - change (frame_at self 0) with (GenCreated self) in Hg. rewrite Hg.
    rewrite (Hres 0%nat) by lia. reflexivity.
  - pose proof Hg as Hg'. cbn [frame_at] in Hg'.
    destruct (bool_decide (S i <= length (users self))%nat) eqn:Hle; rewrite Hg'.
    + apply bool_decide_eq_true_1 in Hle. rewrite (Hres (S i)) by lia. reflexivity.
    + apply bool_decide_eq_false_1 in Hle.
      rewrite (lookup_ge_None_2 (users self) (S i)) by lia.
      replace (frame_at self (S (S i))) with GenFinished.
      * replace (<[g := GenFinished]> (frames w)) with (frames w).
        -- rewrite set_frames_same. reflexivity.
        -- symmetry. apply list_insert_id. exact Hg'.
      * cbn [frame_at]. rewrite bool_decide_eq_false_2 by lia. reflexivity.
Qed.

Lemma frames_insert_at (g : nat) (f : generator) (w : world) (f0 : generator) :
  frames w !! g = Some f0 ->
  frames (set_frames (<[g := f]> (frames w)) w) !! g = Some f.
Proof.
  intros Hg. cbn [frames set_frames].
  apply list_lookup_insert_eq. eapply lookup_lt_Some; eauto.
Qed.

Lemma advance_at (self : UserRepository) (g k : nat) : forall (i : nat) (w : world),
  frames w !! g = Some (frame_at self i) ->
  frames (advance k g w) !! g = Some (frame_at self (i + k)).
Proof.
  induction k as [|k IH]; intros i w Hg; cbn [advance].
  - rewrite Nat.add_0_r. exact Hg.
  - rewrite (next_at self g i w Hg). cbn [fst snd].
    replace (i + S k)%nat with (S i + k)%nat by lia.
    apply IH. eapply frames_insert_at; eauto.
Qed.

Lemma advance_snoc (g k : nat) : forall w : world,
  advance (S k) g w = snd (fst (next g (advance k g w))).
Proof.
  induction k as [|k IH]; intros w; [reflexivity|].
  change (advance (S (S k)) g w) with (advance (S k) g (snd (fst (next g w)))).
  rewrite IH. reflexivity.
Qed.

Lemma list_of_generator_at (self : UserRepository) (g fuel : nat) :
  forall (i : nat) (w : world),
  frames w !! g = Some (frame_at self i) ->
  (length (users self) - i < fuel)%nat ->
  list_of_generator fuel g w
  = Some (Ok (drop i (users self)),
          set_frames (<[g := GenFinished]> (frames w)) w, []).
Proof.
  induction fuel as [|fuel IH]; intros i w Hg Hfuel; [lia|].
  cbn [list_of_generator]. rewrite (next_at self g i w Hg).
  destruct (users self !! i) as [u|] eqn:Hu.
  - rewrite (IH (S i)).
    + cbn [frames set_frames]. rewrite list_insert_insert_eq.
      rewrite (drop_S _ _ _ Hu). reflexivity.
    + eapply frames_insert_at; eauto.
    + apply lookup_lt_Some in Hu. lia.
  - apply lookup_ge_None in Hu. rewrite drop_ge by lia.
    cbn [frame_at]. rewrite bool_decide_eq_false_2 by lia. reflexivity.
Qed.

(** C8. A request for the traversal of a repository yields exactly the
    elements of the repository, one per call of [next], in the order of the
    list, and then stops; this holds for a fresh request in any state, in
    particular after an earlier traversal was left after any number [k] of
    steps (none, some, or all and more). *)
Theorem stream_users_yields_all_in_order
    (self : UserRepository) (w : world) (k fuel : nat)
    (Hfuel : (length (users self) < fuel)%nat) :
  let w1 := advance k (length (frames w)) (snd (fst (stream_users self w))) in
  let g := length (frames w1) in
  let w2 := snd (fst (stream_users self w1)) in
  stream_users self w1 = (Ok g, w2, []) /\
  list_of_generator fuel g w2
    = Some (Ok (users self), set_frames (<[g := GenFinished]> (frames w2)) w2, []) /\
  forall i : nat,
    next g (advance i g w2)
    = (match users self !! i with Some u => Ok u | None => Raise StopIteration end,
       advance (S i) g w2, []).
Proof.
  intros w1 g w2.
  assert (Hg : frames w2 !! g = Some (frame_at self 0)).
  { unfold w2, g. rewrite stream_users_run. cbn [fst snd frames set_frames frame_at].
    apply list_lookup_middle. reflexivity. }
  split; [reflexivity|]. split.
  - rewrite (list_of_generator_at self g fuel 0%nat w2 Hg) by lia. reflexivity.
  - intros i. rewrite advance_snoc.
    pose proof (advance_at self g i 0%nat w2 Hg) as Hi. cbn [Nat.add] in Hi.
    rewrite (next_at self g i _ Hi). reflexivity.
Qed.

Lemma stream_users_yields_all_in_order_witness :
  exists w',
    list_of_generator 3 1
      (snd (fst (stream_users sample_repo
                   (advance 1 0 (snd (fst (stream_users sample_repo two_users)))))))
    = Some (Ok [VUser 0; VUser 1], w', []).
Proof.
  eexists.
  apply (proj1 (proj2 (stream_users_yields_all_in_order sample_repo two_users 1 3
                         ltac:(cbn; lia)))).
Defined.

(** ** Strings *)

Lemma str_app_assoc (a b c : string) : (a +:+ b) +:+ c = a +:+ (b +:+ c).
Proof.
  induction a as [|x a IH]; [reflexivity|].
  change (String x ((a +:+ b) +:+ c) = String x (a +:+ (b +:+ c))). rewrite IH. reflexivity.
Qed.

Lemma str_app_nil_r (a : string) : a +:+ "" = a.
Proof.
  induction a as [|x a IH]; [reflexivity|].
  change (String x (a +:+ "") = String x a). rewrite IH. reflexivity.
Qed.

Lemma str_app_cons (x : ascii) (a b : string) : String x a +:+ b = String x (a +:+ b).
Proof. reflexivity. Qed.

(** ** split *)

Lemma split_not_nil (sep : ascii) (s : string) : split sep s <> [].
Proof.
  destruct s as [|c s]; cbn; [discriminate|].
  destruct (Ascii.eqb c sep); [discriminate|].
  destruct (split sep s); discriminate.
Qed.

(** Joining the fields with the separator gives the text back. *)
Lemma concat_split (sep : ascii) (s : string) :
  String.concat (String sep "") (split sep s) = s.
Proof.
  induction s as [|c s IH]; [reflexivity|]. cbn [split].
  destruct (Ascii.eqb c sep) eqn:E.
  - apply Ascii.eqb_eq in E. subst c.
    pose proof (split_not_nil sep s) as Hne.
    destruct (split sep s) as [|f fs] eqn:Hs; [congruence|].
    cbn [String.concat]. cbn [String.concat] in IH.
    change ("" +:+ String sep "" +:+ String.concat (String sep "") (f :: fs))
      with (String sep (String.concat (String sep "") (f :: fs))).
    cbn [String.concat]. rewrite IH. reflexivity.
  - pose proof (split_not_nil sep s) as Hne.
    destruct (split sep s) as [|f fs] eqn:Hs; [congruence|].
    destruct fs as [|f' fs]; cbn [String.concat] in IH |- *.
    + rewrite IH. reflexivity.
    + rewrite str_app_cons, IH. reflexivity.
Qed.

(** No field holds the separator. *)
Lemma split_fields_no_sep (sep : ascii) (s : string) :
  Forall (fun f => str_contains sep f = false) (split sep s).
Proof.
  induction s as [|c s IH]; cbn [split].
  - repeat constructor.
  - destruct (Ascii.eqb c sep) eqn:E.
    + constructor; [reflexivity|exact IH].
    + destruct (split sep s) as [|f fs]; [repeat constructor; cbn; rewrite E; reflexivity|].
      inversion IH; subst. constructor; [|assumption].
      cbn. rewrite E. assumption.
Qed.

Lemma split_no_sep (sep : ascii) (f : string) :
  str_contains sep f = false -> split sep f = [f].
Proof.
  induction f as [|c f IH]; cbn; [reflexivity|].
  destruct (Ascii.eqb c sep); [discriminate|].
  intros H. rewrite (IH H). reflexivity.
Qed.

Lemma split_app_sep (sep : ascii) (f rest : string) :
  str_contains sep f = false ->
  split sep (f +:+ String sep rest) = f :: split sep rest.
Proof.
  induction f as [|c f IH]; intros H.
  - change (split sep (String sep rest) = "" :: split sep rest).
    cbn [split]. rewrite Ascii.eqb_refl. reflexivity.
  - rewrite str_app_cons. cbn [split]. cbn in H.
    destruct (Ascii.eqb c sep); [discriminate|].
    rewrite (IH H). reflexivity.
Qed.

(** Splitting a join of fields that hold no separator gives the fields. *)
Lemma split_concat (sep : ascii) (fs : list string) :
  fs <> [] -> Forall (fun f => str_contains sep f = false) fs ->
  split sep (String.concat (String sep "") fs) = fs.
Proof.
  induction fs as [|f fs IH]; [congruence|]. intros _ Hfs.
  inversion Hfs as [|? ? Hf Hrest]; subst.
  destruct fs as [|f' fs]; cbn [String.concat].
  - apply split_no_sep, Hf.
  - rewrite str_app_cons. change ("" +:+ ?x) with x.
    rewrite (split_app_sep sep f _ Hf). f_equal. apply IH; [discriminate|assumption].
Qed.

(** ** int *)

Lemma digit_not_space (c : ascii) (d : Z) :
  digit_value c = Some d -> is_space c = false.
Proof.
  unfold digit_value, is_space. cbv zeta.
  destruct (48 <=? nat_of_ascii c)%nat eqn:H1; [|discriminate].
  destruct (nat_of_ascii c <=? 57)%nat eqn:H2; [|discriminate]. intros _.
  apply Nat.leb_le in H1, H2.
  rewrite !orb_false_iff, andb_false_iff, !Nat.eqb_neq, !Nat.leb_gt. lia.
Qed.

Lemma digit_not_underscore (c : ascii) (d : Z) :
  digit_value c = Some d -> Ascii.eqb c "_" = false.
Proof.
  intros H. apply Ascii.eqb_neq. intros ->. discriminate.
Qed.

Lemma space_not_digit (c : ascii) : is_space c = true -> digit_value c = None.
Proof.
  intros H. destruct (digit_value c) as [d|] eqn:E; [|reflexivity].
  apply digit_not_space in E. congruence.
Qed.

Lemma space_not_underscore (c : ascii) : is_space c = true -> Ascii.eqb c "_" = false.
Proof.
  intros H. apply Ascii.eqb_neq. intros ->. discriminate.
Qed.

Lemma skip_spaces_app (ws s : string) :
  spaces ws -> skip_spaces (ws +:+ s) = skip_spaces s.
Proof.
  induction 1 as [|c ws Hc _ IH]; [reflexivity|].
  rewrite str_app_cons. cbn [skip_spaces]. rewrite Hc. exact IH.
Qed.

Lemma skip_spaces_all (ws : string) : spaces ws -> skip_spaces ws = "".
Proof.
  intros H. rewrite <- (str_app_nil_r ws), (skip_spaces_app ws "" H). reflexivity.
Qed.

Lemma skip_spaces_split (s : string) :
  exists ws, spaces ws /\ s = ws +:+ skip_spaces s.
Proof.
  induction s as [|c s (ws & Hws & IH)].
  - exists "". split; [constructor|reflexivity].
  - cbn [skip_spaces]. destruct (is_space c) eqn:Hc.
    + exists (String c ws). split; [constructor; assumption|].
      rewrite str_app_cons, <- IH. reflexivity.
    + exists "". split; [constructor|reflexivity].
Qed.

Lemma skip_spaces_empty (s : string) : skip_spaces s = "" -> spaces s.
Proof.
  intros H. destruct (skip_spaces_split s) as (ws & Hws & E).
  rewrite H, str_app_nil_r in E. subst s. exact Hws.
Qed.

(** The scanner reads a digit text as a whole and goes on after it. *)
Lemma scan_digits_app (body : string) (n : Z) :
  digits body n ->
  forall tail, scan_digits AtStart 0 (body +:+ tail) = scan_digits AfterDigit n tail.
Proof.
  induction 1 as [c d Hd | s n c d _ IH Hd | s n c d _ IH Hd]; intros tail.
  - rewrite str_app_cons. cbn [scan_digits]. rewrite Hd. reflexivity.
  - rewrite str_app_assoc, IH, str_app_cons. cbn [scan_digits]. rewrite Hd. reflexivity.
  - rewrite str_app_assoc, IH, !str_app_cons. cbn [scan_digits].
    change (digit_value "_") with (@None Z). cbv iota.
    change (Ascii.eqb "_" "_") with true. cbv iota.
    rewrite Hd. reflexivity.
Qed.

Lemma scan_digits_stop (n : Z) (ws : string) :
  spaces ws -> scan_digits AfterDigit n ws = Some (n, ws).
Proof.
  destruct 1 as [|c ws Hc _]; [reflexivity|]. cbn [scan_digits].
  rewrite (space_not_digit c Hc), (space_not_underscore c Hc). reflexivity.
Qed.

Lemma scan_digits_sound (s : string) : forall st acc n rest,
  scan_digits st acc s = Some (n, rest) ->
  match st with
  | AtStart => acc = 0 -> exists body, digits body n /\ s = body +:+ rest
  | AfterDigit => forall p, digits p acc ->
      exists body, digits body n /\ p +:+ s = body +:+ rest
  | AfterUnderscore => forall p, digits p acc ->
      exists body, digits body n /\ p +:+ String "_" s = body +:+ rest
  end.
Proof.
  induction s as [|c s IH]; intros st acc n rest H.
  - destruct st; cbn in H; try discriminate.
    inversion H; subst. intros p Hp. exists p. split; [assumption|reflexivity].
  - cbn [scan_digits] in H. destruct (digit_value c) as [d|] eqn:Hd.
    + specialize (IH AfterDigit _ _ _ H). cbn iota in IH. destruct st.
      * intros ->. destruct (IH (String c "")) as (body & Hb & E).
        { replace (10 * 0 + d) with d by lia. constructor. exact Hd. }
        exists body. split; [assumption|exact E].
      * intros p Hp. destruct (IH (p +:+ String c "")) as (body & Hb & E).
        { constructor; assumption. }
        exists body. split; [assumption|]. rewrite <- E, str_app_assoc. reflexivity.
      * intros p Hp. destruct (IH (p +:+ String "_" (String c ""))) as (body & Hb & E).
        { constructor; assumption. }
        exists body. split; [assumption|]. rewrite <- E, str_app_assoc. reflexivity.
    + destruct (Ascii.eqb c "_") eqn:Hu.
      * apply Ascii.eqb_eq in Hu. subst c. destruct st; try discriminate.
        specialize (IH AfterUnderscore _ _ _ H). exact IH.
      * destruct st; try discriminate. inversion H; subst.
        intros p Hp. exists p. split; [assumption|reflexivity].
Qed.

Lemma digits_head (body : string) (n : Z) :
  digits body n -> exists c d rest, body = String c rest /\ digit_value c = Some d.
Proof.
  induction 1 as [c d Hd | s n c d _ (c0 & d0 & r0 & -> & H0) _
                          | s n c d _ (c0 & d0 & r0 & -> & H0) _].
  - eauto.
  - rewrite str_app_cons. eauto.
  - rewrite str_app_cons. eauto.
Qed.

Lemma read_sign_split (s : string) :
  exists sg, sign sg (fst (read_sign s)) /\ s = sg +:+ snd (read_sign s).
Proof.
  destruct s as [|c s]; cbn [read_sign].
  - exists "". split; [constructor|reflexivity].
  - destruct (Ascii.eqb c "+") eqn:Hp; [|destruct (Ascii.eqb c "-") eqn:Hm].
    + apply Ascii.eqb_eq in Hp. subst c. exists "+". split; [constructor|reflexivity].
    + apply Ascii.eqb_eq in Hm. subst c. exists "-". split; [constructor|reflexivity].
    + exists "". split; [constructor|reflexivity].
Qed.

Lemma read_sign_text (sg : string) (k : Z) (body : string) (n : Z) (tail : string) :
  sign sg k -> digits body n ->
  skip_spaces (sg +:+ body +:+ tail) = sg +:+ body +:+ tail /\
  read_sign (sg +:+ body +:+ tail) = (k, body +:+ tail).
Proof.
  intros Hs Hb. destruct (digits_head body n Hb) as (c & d & rest & -> & Hd).
  pose proof (digit_not_space c d Hd) as Hsp.
  destruct Hs.
  - change ("" +:+ ?x) with x. rewrite str_app_cons.
    cbn [skip_spaces read_sign]. rewrite Hsp. split; [reflexivity|].
    assert (Ascii.eqb c "+" = false) as -> by (apply Ascii.eqb_neq; intros ->; discriminate).
    assert (Ascii.eqb c "-" = false) as -> by (apply Ascii.eqb_neq; intros ->; discriminate).
    reflexivity.
  - split; reflexivity.
  - split; reflexivity.
Qed.

(** The texts that denote an integer are exactly the integer texts. *)
Lemma int_of_text_integer_text (s : string) (z : Z) :
  int_of_text s = Some z <-> integer_text s z.
Proof.
  split.
  - unfold int_of_text. intros H.
    destruct (skip_spaces_split s) as (ws1 & Hws1 & Es).
    destruct (read_sign_split (skip_spaces s)) as (sg & Hsg & E1).
    destruct (read_sign (skip_spaces s)) as [k s2]. cbn [fst snd] in Hsg, E1.
    destruct (scan_digits AtStart 0 s2) as [[n rest]|] eqn:Hscan; [|discriminate].
    destruct (scan_digits_sound s2 AtStart 0 n rest Hscan eq_refl) as (body & Hb & E2).
    destruct (skip_spaces rest) eqn:Hrest; [|discriminate].
    apply skip_spaces_empty in Hrest. inversion H; subst z.
    rewrite Es, E1, E2. constructor; assumption.
  - intros [ws1 sg k body n ws2 Hws1 Hsg Hb Hws2]. unfold int_of_text.
    rewrite (skip_spaces_app ws1 _ Hws1).
    destruct (read_sign_text sg k body n ws2 Hsg Hb) as [-> ->].
    rewrite (scan_digits_app body n Hb), (scan_digits_stop n ws2 Hws2).
    rewrite (skip_spaces_all ws2 Hws2). reflexivity.
Qed.

(** [int] accepts exactly the integer texts within the limit on digits, and
    returns what they denote. *)
Lemma py_int_short_integer_text (s : string) (z : Z) :
  py_int s = Some z <-> short_integer_text s z.
Proof.
  unfold py_int, short_integer_text. rewrite <- int_of_text_integer_text.
  destruct (Nat.leb_spec (digit_count s) max_str_digits) as [Hle|Hgt].
  - tauto.
  - split; [discriminate|]. intros [_ H]. lia.
Qed.

(** ** from_string *)

Example from_string_demo :
  User.from_string RegularUser "2,Rahul,rahul@test.com" initial_world
  = (Ok (VUser 0),
     mk_world [mk_user RegularUser 2 "Rahul" "rahul@test.com" true] 1 0 [],
     []).
Proof. reflexivity. Qed.

Example from_string_four_fields :
  User.from_string RegularUser "2,Rahul,rahul@test.com," initial_world
  = (Raise ValueError, initial_world, []).
Proof. reflexivity. Qed.

(** C3, as the code has it. [from_string] succeeds exactly when splitting
    the text on commas gives three fields and the first is an integer text
    that [int] accepts, that is one of at most 4300 digits; it then
    constructs an instance of the calling class with the integer, the
    second and the third field. With another number of fields, or a first
    field that is not such a text, it raises [ValueError] and changes
    nothing. So "2,Rahul,rahul@test.com" gives identifier 2, name "Rahul"
    and email "rahul@test.com", and "x,y" and "a,b,c" fail. *)
Theorem from_string_three_fields_integer_id (c : py_class) (data : string) (w : world) :
  (forall a nm em n,
     split "," data = [a; nm; em] -> short_integer_text a n ->
     User.from_string c data w
     = (Ok (VUser (length (heap w))),
        mk_world (heap w ++ [mk_user c n nm em true])
                 (active_user_count w + 1) (clock w) (frames w),
        [])) /\
  (length (split "," data) <> 3%nat \/
   (forall n, ~ short_integer_text (hd "" (split "," data)) n) ->
   User.from_string c data w = (Raise ValueError, w, [])) /\
  User.from_string c "2,Rahul,rahul@test.com" w
  = (Ok (VUser (length (heap w))),
     mk_world (heap w ++ [mk_user c 2 "Rahul" "rahul@test.com" true])
              (active_user_count w + 1) (clock w) (frames w),
     []) /\
  User.from_string c "x,y" w = (Raise ValueError, w, []) /\
  User.from_string c "a,b,c" w = (Raise ValueError, w, []).
Proof.
  split; [|split; [|repeat split]].
  - intros a nm em n Hsplit Hint. unfold User.from_string. rewrite Hsplit.
    apply py_int_short_integer_text in Hint. rewrite Hint. apply init_run.
  - intros H. unfold User.from_string.
    destruct (split "," data) as [|a [|nm [|em [|x fs]]]] eqn:Hsplit; try reflexivity.
    destruct (py_int a) as [n|] eqn:Hint; [|reflexivity].
    apply py_int_short_integer_text in Hint.
    destruct H as [H|H]; [cbn in H; congruence|]. destruct (H n Hint).
Qed.

Lemma from_string_three_fields_integer_id_witness :
  User.from_string AdminUser " -1_0 ,a b,c" initial_world
  = (Ok (VUser 0), mk_world [mk_user AdminUser (-10) "a b" "c" true] 1 0 [], []) /\
  User.from_string AdminUser "1,2" initial_world = (Raise ValueError, initial_world, []).
Proof.
  split.
  - apply (proj1 (from_string_three_fields_integer_id AdminUser " -1_0 ,a b,c" initial_world)
             " -1_0 " "a b" "c" (-10)).
    + reflexivity.
    + apply py_int_short_integer_text. reflexivity.
  - apply (proj1 (proj2 (from_string_three_fields_integer_id AdminUser "1,2" initial_world))).
    left. cbn. discriminate.
Defined.

Lemma str_repeat_snoc (c : ascii) (k : nat) :
  str_repeat c (S k) = str_repeat c k +:+ String c "".
Proof.
  induction k as [|k IH]; [reflexivity|].
  change (String c (str_repeat c (S k)) = String c (str_repeat c k +:+ String c "")).
  rewrite IH. reflexivity.
Qed.

(** A run of the digit 1 is a digit text. *)
Lemma digits_repeat_one (k : nat) : exists n, digits (str_repeat "1" (S k)) n.
Proof.
  induction k as [|k [n IH]].
  - exists 1. apply digits_one. reflexivity.
  - exists (10 * n + 1). rewrite str_repeat_snoc. apply digits_more; [exact IH | reflexivity].
Qed.

(** C3, as it was stated, fails: splitting [long_identifier_text] on commas
    gives three fields and the first, 4301 times the digit 1, is an integer
    text, yet [from_string] raises [ValueError], because [int] refuses a
    text of more than 4300 digits. *)
Lemma from_string_long_identifier_fails :
  split "," long_identifier_text = [long_identifier; "a"; "b"] /\
  (exists n, integer_text long_identifier n) /\
  User.from_string AdminUser long_identifier_text initial_world
  = (Raise ValueError, initial_world, []).
Proof.
  split; [vm_compute; reflexivity|]. split.
  - destruct (digits_repeat_one 4300) as [n Hn]. exists (1 * n).
    replace long_identifier with ("" +:+ "" +:+ long_identifier +:+ "")
      by apply str_app_nil_r.
    constructor; [constructor | constructor | exact Hn | constructor].
  - vm_compute. reflexivity.
Qed.

(** ** The wrappers *)

Lemma set_clock_twice (a b : nat) (w : world) :
  set_clock a (set_clock b w) = set_clock a w.
Proof. reflexivity. Qed.

Lemma set_clock_same (w : world) : set_clock (clock w) w = w.
Proof. destruct w. reflexivity. Qed.

Lemma timers_perm (ds ds' : list decorator) :
  Permutation ds ds' -> timers ds = timers ds'.
Proof.
  induction 1 as [|d ds ds' _ IH|d d' ds|ds ds' ds'' _ IH1 _ IH2]; cbn.
  - reflexivity.
  - destruct d; rewrite IH; reflexivity.
  - destruct d, d'; reflexivity.
  - congruence.
Qed.

Lemma loggers_perm (ds ds' : list decorator) :
  Permutation ds ds' -> loggers ds = loggers ds'.
Proof.
  induction 1 as [|d ds ds' _ IH|d d' ds|ds ds' ds'' _ IH1 _ IH2]; cbn.
  - reflexivity.
  - destruct d as [[|]|]; rewrite IH; reflexivity.
  - destruct d as [[|]|], d' as [[|]|]; reflexivity.
  - congruence.
Qed.

(** The logging wrapper: the notice when enabled, then the call itself. *)
Lemma log_execution_run (enabled : bool) (func : pyfunc) (args : list value) (w : world) :
  call (log_execution enabled func) args w =
  let '(r, w1, o) := call func args w in
  (r, w1, (if enabled then [log_line (__name__ func)] else []) ++ o).
Proof.
  cbn [call log_execution]. rewrite run_bind.
  destruct enabled; cbn; destruct (call func args w) as [[r w1] o]; reflexivity.
Qed.

Section TimingProperties.

Context {wall_clock : WallClock}.

(** The timing wrapper: a reading of the clock, the call itself, and only
    when the call returns a second reading and the notice. *)
Lemma time_execution_run (func : pyfunc) (args : list value) (w : world) :
  call (time_execution func) args w =
  let '(r, w1, o) := call func args (set_clock (S (clock w)) w) in
  match r with
  | Ok v =>
      (Ok v, set_clock (S (clock w1)) w1,
       o ++ [time_line (__name__ func) (reading (clock w)) (reading (clock w1))])
  | _ => (r, w1, o)
  end.
Proof.
  cbn [call time_execution]. rewrite run_bind. cbn [time_time].
  rewrite run_bind.
  destruct (call func args (set_clock (S (clock w)) w)) as [[[v|e|] w1] o]; reflexivity.
Qed.

Lemma decorate_all_name (ds : list decorator) (func : pyfunc) :
  __name__ (decorate_all ds func) = __name__ func.
Proof.
  induction ds as [|[b|] ds IH]; [reflexivity|exact IH|exact IH].
Qed.

(** A stack of wrappers: the call itself, entered after one reading of the
    clock per timer, and around it the notices. *)
Lemma decorate_all_run (ds : list decorator) (func : pyfunc) (args : list value) :
  forall w : world,
  call (decorate_all ds func) args w =
  let '(r, w1, o) := call func args (set_clock (clock w + timers ds) w) in
  match r with
  | Ok v =>
      (Ok v, set_clock (clock w1 + timers ds) w1,
       replicate (loggers ds) (log_line (__name__ func)) ++ o
       ++ time_lines (__name__ func) (timers ds) (clock w) (clock w1))
  | _ => (r, w1, replicate (loggers ds) (log_line (__name__ func)) ++ o)
  end.
Proof.
  induction ds as [|[b|] ds IH]; intros w.
  - cbn [decorate_all fold_right timers loggers replicate time_lines app].
    rewrite Nat.add_0_r, set_clock_same.
    destruct (call func args w) as [[[v|e|] w1] o]; try reflexivity.
    rewrite Nat.add_0_r, set_clock_same, app_nil_r. reflexivity.
  - change (decorate_all (LogExecution b :: ds) func)
      with (log_execution b (decorate_all ds func)).
    rewrite log_execution_run, IH, decorate_all_name. cbn [timers].
    destruct (call func args (set_clock (clock w + timers ds) w)) as [[[v|e|] w1] o];
      destruct b; reflexivity.
  - change (decorate_all (TimeExecution :: ds) func)
      with (time_execution (decorate_all ds func)).
    rewrite time_execution_run, IH, decorate_all_name. cbn [timers loggers].
    rewrite set_clock_twice. cbn [clock set_clock].
    replace (S (clock w) + timers ds)%nat with (clock w + S (timers ds))%nat by lia.
    destruct (call func args (set_clock (clock w + S (timers ds)) w)) as [[[v|e|] w1] o];
      try reflexivity.
    cbn [clock set_clock]. rewrite set_clock_twice.
    replace (S (clock w1 + timers ds))%nat with (clock w1 + S (timers ds))%nat by lia.
    cbn [time_lines]. rewrite <- !app_assoc. reflexivity.
Qed.

(** C4. The logging wrapper (enabled or not) and the timing wrapper return
    what the wrapped function returns and raise what it raises, and leave
    the state as the function left it but for the readings of the clock;
    they add only their notices to the console. The same holds for any
    stack of them, whose outcome does not depend on the order of the
    wrappers. The function runs inside a timer after the timer has read the
    clock, so it is compared with a call entered at that reading. *)
Theorem wrappers_preserve_result (func : pyfunc) (args : list value) (w : world) :
  (forall enabled : bool,
     call (log_execution enabled func) args w =
     let '(r, w1, o) := call func args w in
     (r, w1, (if enabled then [log_line (__name__ func)] else []) ++ o)) /\
  (call (time_execution func) args w =
   let '(r, w1, o) := call func args (set_clock (S (clock w)) w) in
   match r with
   | Ok v =>
       (Ok v, set_clock (S (clock w1)) w1,
        o ++ [time_line (__name__ func) (reading (clock w)) (reading (clock w1))])
   | _ => (r, w1, o)
   end) /\
  (forall ds : list decorator,
     __name__ (decorate_all ds func) = __name__ func /\
     fst (fst (call (decorate_all ds func) args w))
     = fst (fst (call func args (set_clock (clock w + timers ds) w))) /\
     call (decorate_all ds func) args w =
     let '(r, w1, o) := call func args (set_clock (clock w + timers ds) w) in
     match r with
     | Ok v =>
         (Ok v, set_clock (clock w1 + timers ds) w1,
          replicate (loggers ds) (log_line (__name__ func)) ++ o
          ++ time_lines (__name__ func) (timers ds) (clock w) (clock w1))
     | _ => (r, w1, replicate (loggers ds) (log_line (__name__ func)) ++ o)
     end) /\
  (forall ds ds' : list decorator,
     Permutation ds ds' ->
     call (decorate_all ds func) args w = call (decorate_all ds' func) args w).
Proof.
  split; [|split; [|split]].
  - intros enabled. apply log_execution_run.
  - apply time_execution_run.
  - intros ds. split; [apply decorate_all_name|]. split; [|apply decorate_all_run].
    rewrite decorate_all_run.
    destruct (call func args (set_clock (clock w + timers ds) w)) as [[[v|e|] w1] o];
      reflexivity.
  - intros ds ds' Hperm. rewrite !decorate_all_run.
    rewrite (timers_perm ds ds' Hperm), (loggers_perm ds ds' Hperm). reflexivity.
Qed.

(** C9. When the wrapped function raises, the timing wrapper raises the
    same error and prints nothing of its own: the console holds what the
    function printed and no timing notice. *)
Theorem time_execution_error_no_notice
    (func : pyfunc) (args : list value) (w w1 : world) (e : exn) (o : list string)
    (Hraise : call func args (set_clock (S (clock w)) w) = (Raise e, w1, o)) :
  call (time_execution func) args w = (Raise e, w1, o).
Proof. rewrite time_execution_run, Hraise. reflexivity. Qed.

End TimingProperties.

Lemma wrappers_preserve_result_witness :
  call (@decorate_all sample_clock [TimeExecution; LogExecution true] sample_returning)
       [] initial_world
  = call (@decorate_all sample_clock [LogExecution true; TimeExecution] sample_returning)
         [] initial_world.
Proof.
  apply (proj2 (proj2 (proj2
           (@wrappers_preserve_result sample_clock sample_returning [] initial_world)))).
  apply perm_swap.
Defined.

Example decorated_call :
  call (@decorate_all sample_clock
          [TimeExecution; LogExecution true; TimeExecution; LogExecution false]
          sample_returning) [] initial_world
  = (Ok (VInt 42), set_clock 4 initial_world,
     ["[LOG] Executing answer"; "working";
      "[TIME] answer took 1.0000s"; "[TIME] answer took 3.0000s"]).
Proof. reflexivity. Qed.

Lemma time_execution_error_no_notice_witness :
  call (@time_execution sample_clock sample_failing) [] initial_world
  = (Raise ValueError, set_clock 1 initial_world, ["before"]).
Proof.
  apply (@time_execution_error_no_notice sample_clock sample_failing [] initial_world).
  reflexivity.
Defined.

(** * Properties of the rest of the module *)

(** ** Reading attributes *)

(** Reading an attribute of a value ends in one of three ways, and never
    changes the state or prints. *)
Lemma deref_cases (v : value) (w : world) :
  (exists r o, v = VUser r /\ heap w !! r = Some o /\ deref v w = (Ok o, w, [])) \/
  ((forall r, v <> VUser r) /\ deref v w = (Raise AttributeError, w, [])) \/
  (exists r, v = VUser r /\ heap w !! r = None /\ deref v w = (Stuck, w, [])).
Proof.
  destruct v as [| b | n | s | r].
  1-4: right; left; split; [intros r; discriminate | reflexivity].
  destruct (heap w !! r) as [o|] eqn:Hr.
  - left. exists r, o. split; [reflexivity|]. split; [exact Hr|]. apply deref_user, Hr.
  - right; right. exists r. split; [reflexivity|]. split; [exact Hr|].
    unfold deref. rewrite run_bind. cbn [ref_of mret Py_ret]. unfold load.
    rewrite Hr. reflexivity.
Qed.

Lemma deref_quiet (v : value) (w : world) :
  snd (fst (deref v w)) = w /\ snd (deref v w) = [].
Proof.
  destruct (deref_cases v w) as [(r & o & _ & _ & ->) | [[_ ->] | (r & _ & _ & ->)]];
    split; reflexivity.
Qed.

(** A computation that reads one object and returns a function of it. *)
Lemma deref_then_quiet {A} (f : user -> A) (v : value) (w : world) :
  snd (fst ((o ← deref v; mret (f o)) w)) = w /\
  snd ((o ← deref v; mret (f o)) w) = [].
Proof.
  rewrite run_bind.
  destruct (deref_cases v w) as [(r & o & _ & _ & ->) | [[_ ->] | (r & _ & _ & ->)]];
    split; reflexivity.
Qed.

Lemma get_role_cases (v : value) (w : world) :
  (exists r o, v = VUser r /\ heap w !! r = Some o /\
               get_role v w = (Ok (get_role_of (cls o)), w, [])) \/
  ((forall r, v <> VUser r) /\ get_role v w = (Raise AttributeError, w, [])) \/
  (exists r, v = VUser r /\ heap w !! r = None /\ get_role v w = (Stuck, w, [])).
Proof.
  unfold get_role.
  destruct (deref_cases v w) as [(r & o & -> & Hr & H) | [[Hv H] | (r & -> & Hr & H)]].
  - left. exists r, o. rewrite (run_bind_ok _ _ _ _ _ _ H). auto.
  - right; left. rewrite (run_bind_raise _ _ _ _ _ _ H). auto.
  - right; right. exists r. rewrite run_bind, H. auto.
Qed.

(** ** require_admin *)

Lemma require_admin_user (func : pyfunc) (rest : list value) (w : world) (r : nat) (o : user) :
  heap w !! r = Some o ->
  call (require_admin func) (VUser r :: rest) w =
  match cls o with
  | AdminUser => call func (VUser r :: rest) w
  | RegularUser => (Raise (PermissionError "Admin access required"), w, [])
  end.
Proof.
  intros Hr. cbn [call require_admin].
  rewrite (run_bind_ok _ _ _ _ _ _ (get_role_user w r o Hr)).
  destruct (cls o); cbn [get_role_of]; [|reflexivity].
  change (negb ("ADMIN" =? "ADMIN")%string) with false. cbv iota.
  destruct (call func (VUser r :: rest) w) as [[res w'] out]. reflexivity.
Qed.

(** X1. [require_admin(func)] keeps the name of [func]. Called on a user
    whose class is [AdminUser] it is the call of [func] itself, on the same
    arguments; on a user of the other class it raises [PermissionError]
    without calling [func], whatever [func] is. On a first argument that is
    not a user it raises [AttributeError], and without arguments
    [TypeError]. *)
Theorem require_admin_gate (func : pyfunc) (rest : list value) (w : world) :
  __name__ (require_admin func) = __name__ func /\
  (forall r o, heap w !! r = Some o ->
     call (require_admin func) (VUser r :: rest) w =
     match cls o with
     | AdminUser => call func (VUser r :: rest) w
     | RegularUser => (Raise (PermissionError "Admin access required"), w, [])
     end) /\
  (forall v, (forall r, v <> VUser r) ->
     call (require_admin func) (v :: rest) w = (Raise AttributeError, w, [])) /\
  call (require_admin func) [] w = (Raise TypeError, w, []).
Proof.
  split; [reflexivity|]. split; [|split; [|reflexivity]].
  - intros r o. apply require_admin_user.
  - intros v Hv. cbn [call require_admin].
    destruct (get_role_cases v w) as [(r & _ & -> & _) | [[_ H] | (r & -> & _)]].
    + destruct (Hv r). reflexivity.
    + rewrite (run_bind_raise _ _ _ _ _ _ H). reflexivity.
    + destruct (Hv r). reflexivity.
Qed.

Lemma require_admin_gate_witness :
  call sample_gated [VUser 0; VInt 7] two_users
    = (Ok (VInt 42), two_users, ["working"]) /\
  call sample_gated [VUser 1; VInt 7] two_users
    = (Raise (PermissionError "Admin access required"), two_users, []) /\
  call sample_gated [VStr "root"] two_users = (Raise AttributeError, two_users, []).
Proof.
  destruct (require_admin_gate sample_returning [VInt 7] two_users) as (_ & Hu & _).
  destruct (require_admin_gate sample_returning [] two_users) as (_ & _ & Hv & _).
  split; [|split].
  - exact (Hu 0%nat _ eq_refl).
  - exact (Hu 1%nat _ eq_refl).
  - apply Hv. intros r. discriminate.
Defined.

(** ** find_user, whatever the list holds *)

(** X3. Whatever [find_user] returns is right: the state is as before, and
    either the result is [None], the notice was printed once and every
    element is a user with another identifier, or the result is an element
    of the list that is a user with the identifier searched, every element
    before it is a user with another identifier, and nothing was printed. *)
Theorem find_user_result
    (us : list value) (uid : Z) (w w' : world) (v : value) (out : list string)
    (Hrun : find_user us uid w = (Ok v, w', out)) :
  w' = w /\
  ((v = VNone /\ out = ["User not found"] /\ Forall (other_user w uid) us) \/
   (exists pre post r o,
      us = pre ++ VUser r :: post /\ Forall (other_user w uid) pre /\
      v = VUser r /\ heap w !! r = Some o /\ user_id o = uid /\ out = [])).
Proof.
  revert Hrun. induction us as [|u us IH]; intros Hrun.
  - inversion Hrun; subst. split; [reflexivity|]. left. repeat split. constructor.
  - cbn [find_user] in Hrun.
    destruct (deref_cases u w) as [(r & o & -> & Hr & H) | [[_ H] | (r & _ & _ & H)]].
    + rewrite (run_bind_ok _ _ _ _ _ _ H) in Hrun.
      destruct (Z.eqb_spec (user_id o) uid) as [Heq|Hne].
      * inversion Hrun; subst. split; [reflexivity|]. right.
        exists [], us, r, o. repeat split; auto.
      * destruct (find_user us uid w) as [[res w1] o1] eqn:Hrest.
        cbn [app] in Hrun. inversion Hrun; subst.
        destruct (IH eq_refl) as [-> [(-> & -> & Hall) | (pre & post & r' & o' & -> & Hpre & -> & Hr' & Hid & ->)]].
        -- split; [reflexivity|]. left. repeat split.
           constructor; [exists r, o; auto | exact Hall].
        -- split; [reflexivity|]. right.
           exists (VUser r :: pre), post, r', o'. repeat split; auto.
           constructor; [exists r, o; auto | exact Hpre].
    + rewrite (run_bind_raise _ _ _ _ _ _ H) in Hrun. discriminate.
    + rewrite run_bind, H in Hrun. discriminate.
Qed.

Lemma find_user_result_witness :
  Forall (other_user two_users 99) [VUser 0; VUser 1].
Proof.
  destruct (find_user_result [VUser 0; VUser 1] 99 two_users two_users VNone
              ["User not found"] eq_refl)
    as [_ [(_ & _ & Hall) | (pre & post & r & o & _ & _ & Hv & _)]].
  - exact Hall.
  - discriminate Hv.
Defined.

(** X4. When the scan reaches a value that is not a user before any match,
    [find_user] raises [AttributeError]; nothing is printed and the state
    is unchanged, whatever follows in the list. *)
Theorem find_user_non_user_element
    (pre post : list value) (v : value) (uid : Z) (w : world)
    (Hpre : Forall (other_user w uid) pre) (Hv : forall r, v <> VUser r) :
  find_user (pre ++ v :: post) uid w = (Raise AttributeError, w, []).
Proof.
  induction Hpre as [|u pre Hu _ IH]; cbn [app].
  - cbn [find_user]. rewrite (run_bind_raise _ _ _ _ _ _ (deref_non_user w v Hv)).
    reflexivity.
  - rewrite (find_user_skip w uid u _ Hu). exact IH.
Qed.

Lemma find_user_non_user_element_witness :
  find_user [VUser 0; VNone; VUser 2] 2 two_users = (Raise AttributeError, two_users, []).
Proof.
  apply (find_user_non_user_element [VUser 0] [VUser 2] VNone 2 two_users).
  - repeat constructor. eapply other_user_intro; [reflexivity|discriminate].
  - intros r. discriminate.
Defined.

(** ** Operations that only read *)

Lemma find_user_state (us : list value) (uid : Z) (w : world) :
  snd (fst (find_user us uid w)) = w.
Proof.
  induction us as [|u us IH]; [reflexivity|]. cbn [find_user]. rewrite run_bind.
  destruct (deref_cases u w) as [(r & o & _ & _ & ->) | [[_ ->] | (r & _ & _ & ->)]];
    try reflexivity.
  destruct (user_id o =? uid); [reflexivity|].
  destruct (find_user us uid w) as [[res w1] o1]. exact IH.
Qed.

Lemma two_derefs_quiet (f : user -> user -> value) (a b : value) (w : world) :
  snd (fst ((x ← deref a; y ← deref b; mret (f x y)) w)) = w /\
  snd ((x ← deref a; y ← deref b; mret (f x y)) w) = [].
Proof.
  rewrite run_bind.
  destruct (deref_cases a w) as [(r & o & _ & _ & ->) | [[_ ->] | (r & _ & _ & ->)]];
    try (split; reflexivity).
  pose proof (deref_then_quiet (f o) b w) as [H1 H2].
  destruct ((y ← deref b; mret (f o y)) w) as [[res w1] o1].
  cbn [fst snd] in *. subst. split; reflexivity.
Qed.

Lemma py_str_quiet (n : Z) (w : world) :
  snd (fst (py_str n w)) = w /\ snd (py_str n w) = [].
Proof.
  unfold py_str. destruct (digit_count (decimal n) <=? max_str_digits)%nat;
    split; reflexivity.
Qed.

(** X5. The operations that only read a user, [get_role], [__str__],
    [__repr__], [__len__], [__call__], [__eq__] and [__lt__], leave the
    state as it was and print nothing, on every argument (a user or not,
    whether they return or raise); [find_user] leaves the state as it was
    on every list. *)
Theorem readers_change_nothing (v v' : value) (us : list value) (uid : Z) (w : world) :
  (snd (fst (get_role v w)) = w /\ snd (get_role v w) = []) /\
  (snd (fst (User.__str__ v w)) = w /\ snd (User.__str__ v w) = []) /\
  (snd (fst (__repr__ v w)) = w /\ snd (__repr__ v w) = []) /\
  (snd (fst (User.__len__ v w)) = w /\ snd (User.__len__ v w) = []) /\
  (snd (fst (User.__call__ v w)) = w /\ snd (User.__call__ v w) = []) /\
  (snd (fst (User.__eq__ v v' w)) = w /\ snd (User.__eq__ v v' w) = []) /\
  (snd (fst (User.__lt__ v v' w)) = w /\ snd (User.__lt__ v v' w) = []) /\
  snd (fst (find_user us uid w)) = w.
Proof.
  assert (Hstr : snd (fst (User.__str__ v w)) = w /\ snd (User.__str__ v w) = []).
  { unfold User.__str__. rewrite run_bind.
    destruct (get_role_cases v w) as [(r & o & -> & Hr & ->) | [[_ ->] | (r & _ & _ & ->)]];
      try (split; reflexivity).
    rewrite (run_bind_ok _ _ _ _ _ _ (deref_user w r o Hr)). split; reflexivity. }
  assert (Hrepr : snd (fst (__repr__ v w)) = w /\ snd (__repr__ v w) = []).
  { unfold __repr__. rewrite run_bind.
    destruct (deref_cases v w) as [(r & o & _ & _ & ->) | [[_ ->] | (r & _ & _ & ->)]];
      try (split; reflexivity).
    rewrite run_bind. pose proof (py_str_quiet (user_id o) w) as [H1 H2].
    destruct (py_str (user_id o) w) as [[[s|e|] w1] o1]; cbn [fst snd] in *; subst;
      split; reflexivity. }
  repeat apply conj;
    first [ apply Hstr | apply Hrepr
          | apply (deref_then_quiet _ v w)
          | apply (two_derefs_quiet _ v v' w)
          | apply find_user_state ].
Qed.

(** ** Generators *)

(** X7. A call of [next] on a generator changes nothing but the frame of
    that generator: the users, the active count and the clock are as
    before, no frame is added or removed, every other generator stays where
    it was, and nothing is printed. *)
Theorem next_touches_only_its_frame (g : nat) (w : world) :
  heap (snd (fst (next g w))) = heap w /\
  active_user_count (snd (fst (next g w))) = active_user_count w /\
  clock (snd (fst (next g w))) = clock w /\
  length (frames (snd (fst (next g w)))) = length (frames w) /\
  (forall g' : nat, g' <> g -> frames (snd (fst (next g w))) !! g' = frames w !! g') /\
  snd (next g w) = [].
Proof.
  assert (Hres : forall l i,
    let w' := snd (fst (resume g l i w)) in
    heap w' = heap w /\ active_user_count w' = active_user_count w /\
    clock w' = clock w /\ length (frames w') = length (frames w) /\
    (forall g', g' <> g -> frames w' !! g' = frames w !! g') /\
    snd (resume g l i w) = []).
  { intros l i. rewrite resume_run.
    destruct (l !! i); cbn [fst snd heap active_user_count clock frames set_frames];
      repeat split; try apply length_insert;
      intros g' Hne; apply list_lookup_insert_ne; congruence. }
  unfold next. rewrite run_bind. cbn [get_world].
  destruct (frames w !! g) as [[self | l i |]|].
  - destruct (Hres (users self) 0%nat) as (H1 & H2 & H3 & H4 & H5 & H6).
    destruct (resume g (users self) 0 w) as [[res w1] o1]. cbn [fst snd] in *.
    subst o1. repeat split; assumption.
  - destruct (Hres l i) as (H1 & H2 & H3 & H4 & H5 & H6).
    destruct (resume g l i w) as [[res w1] o1]. cbn [fst snd] in *.
    subst o1. repeat split; assumption.
  - repeat split.
  - repeat split.
Qed.

(** X6. After [i] calls of [next] on a fresh generator, [list] of it gives
    the elements from index [i] on, in order (none when [i] is at or past
    the end), and leaves the generator finished; a finished generator
    raises [StopIteration] at every further [next], unchanged. *)
Theorem list_of_generator_rest
    (self : UserRepository) (w : world) (i fuel : nat)
    (Hfuel : (length (users self) - i < fuel)%nat) :
  let g := length (frames w) in
  let w1 := advance i g (snd (fst (stream_users self w))) in
  let w2 := set_frames (<[g := GenFinished]> (frames w1)) w1 in
  list_of_generator fuel g w1 = Some (Ok (drop i (users self)), w2, []) /\
  next g w2 = (Raise StopIteration, w2, []).
Proof.
  intros g w1 w2.
  assert (Hg : frames (snd (fst (stream_users self w))) !! g = Some (frame_at self 0)).
  { unfold g. rewrite stream_users_run. cbn [fst snd frames set_frames frame_at].
    apply list_lookup_middle. reflexivity. }
  pose proof (advance_at self g i 0%nat _ Hg) as Hi. cbn [Nat.add] in Hi. fold w1 in Hi.
  split.
  - apply (list_of_generator_at self g fuel i w1 Hi Hfuel).
  - assert (Hfin : frames w2 !! g = Some GenFinished).
    { unfold w2. eapply frames_insert_at; eauto. }
    unfold next. rewrite run_bind. cbn [get_world]. rewrite Hfin. reflexivity.
Qed.

Lemma list_of_generator_rest_witness :
  exists w',
    list_of_generator 2 0 (advance 1 0 (snd (fst (stream_users sample_repo two_users))))
    = Some (Ok [VUser 1], w', []).
Proof.
  eexists.
  apply (proj1 (list_of_generator_rest sample_repo two_users 1 2 ltac:(cbn; lia))).
Defined.

(** ** The gate and the other wrappers *)

Section GateProperties.

Context {wall_clock : WallClock}.

(** X2. Where the gate sits matters. For a user that is not an admin, a
    gate around a stack of logging and timing wrappers raises
    [PermissionError] before anything happens; a gate under the stack
    raises the same error after every enabled logger has printed its notice
    and every timer has read the clock once, and no timing notice is
    printed. *)
Theorem gate_position
    (ds : list decorator) (func : pyfunc) (rest : list value)
    (w : world) (r : nat) (o : user)
    (Hr : heap w !! r = Some o) (Hcls : cls o = RegularUser) :
  call (require_admin (decorate_all ds func)) (VUser r :: rest) w
    = (Raise (PermissionError "Admin access required"), w, []) /\
  call (decorate_all ds (require_admin func)) (VUser r :: rest) w
    = (Raise (PermissionError "Admin access required"),
       set_clock (clock w + timers ds) w,
       replicate (loggers ds) (log_line (__name__ func))).
Proof.
  split.
  - rewrite (require_admin_user _ rest w r o Hr), Hcls. reflexivity.
  - rewrite decorate_all_run.
    rewrite (require_admin_user func rest (set_clock (clock w + timers ds) w) r o Hr), Hcls.
    rewrite app_nil_r. reflexivity.
Qed.

End GateProperties.

Lemma gate_position_witness :
  call (require_admin (@decorate_all sample_clock [TimeExecution; LogExecution true]
                         sample_returning)) [VUser 1] two_users
    = (Raise (PermissionError "Admin access required"), two_users, []) /\
  call (@decorate_all sample_clock [TimeExecution; LogExecution true]
          (require_admin sample_returning)) [VUser 1] two_users
    = (Raise (PermissionError "Admin access required"),
       set_clock 1 two_users, ["[LOG] Executing answer"]).
Proof.
  apply (@gate_position sample_clock [TimeExecution; LogExecution true]
           sample_returning [] two_users 1%nat _ eq_refl eq_refl).
Defined.

(** ** int and str *)

Lemma scan_uint (d : Decimal.uint) : forall acc : Z,
  scan_digits AfterDigit acc (DecimalString.NilEmpty.string_of_uint d)
  = Some (uint_value d acc, "").
Proof.
  induction d as [|d IH|d IH|d IH|d IH|d IH|d IH|d IH|d IH|d IH|d IH]; intros acc;
    [reflexivity | apply IH ..].
Qed.

Lemma scan_uint_start (d : Decimal.uint) :
  d <> Decimal.Nil ->
  scan_digits AtStart 0 (DecimalString.NilEmpty.string_of_uint d)
  = Some (uint_value d 0, "").
Proof.
  destruct d as [|d|d|d|d|d|d|d|d|d|d]; intros Hd;
    [congruence | exact (scan_uint d _) ..].
Qed.

Lemma uint_value_pos (d : Decimal.uint) : forall acc : positive,
  uint_value d (Z.pos acc) = Z.pos (Pos.of_uint_acc d acc).
Proof.
  induction d as [|d IH|d IH|d IH|d IH|d IH|d IH|d IH|d IH|d IH|d IH]; intros acc;
    cbn [uint_value Pos.of_uint_acc]; [reflexivity | rewrite <- IH; f_equal; lia ..].
Qed.

Lemma uint_value_of_uint (d : Decimal.uint) :
  uint_value d 0 = Z.of_N (Pos.of_uint d).
Proof.
  induction d as [|d IH|d IH|d IH|d IH|d IH|d IH|d IH|d IH|d IH|d IH];
    [reflexivity | exact IH | apply (uint_value_pos d) ..].
Qed.

Lemma to_uint_not_nil (p : positive) : Pos.to_uint p <> Decimal.Nil.
Proof.
  intros H. pose proof (DecimalPos.Unsigned.of_to p) as E. rewrite H in E. discriminate.
Qed.

Lemma int_of_text_unsigned (s : string) (n : Z) :
  skip_spaces s = s -> read_sign s = (1, s) ->
  scan_digits AtStart 0 s = Some (n, "") -> int_of_text s = Some n.
Proof.
  intros H1 H2 H3. unfold int_of_text. rewrite H1, H2, H3. cbn [skip_spaces].
  f_equal; lia.
Qed.

Lemma int_of_text_negated (s : string) (n : Z) :
  scan_digits AtStart 0 s = Some (n, "") -> int_of_text (String "-" s) = Some (- n).
Proof.
  intros H. unfold int_of_text.
  change (skip_spaces (String "-" s)) with (String "-" s).
  change (read_sign (String "-" s)) with (-1, s).
  cbv beta iota. rewrite H. cbn [skip_spaces]. f_equal; lia.
Qed.

Lemma int_of_text_of_uint (d : Decimal.uint) :
  d <> Decimal.Nil ->
  int_of_text (DecimalString.NilEmpty.string_of_uint d) = Some (uint_value d 0) /\
  int_of_text (String "-" (DecimalString.NilEmpty.string_of_uint d)) = Some (- uint_value d 0).
Proof.
  intros Hd. pose proof (scan_uint_start d Hd) as Hscan. split.
  - apply int_of_text_unsigned; [| |exact Hscan];
      destruct d; try congruence; reflexivity.
  - apply int_of_text_negated, Hscan.
Qed.

(** The decimal text of [n] denotes [n]. *)
Lemma int_of_text_decimal (n : Z) : int_of_text (decimal n) = Some n.
Proof.
  destruct n as [|p|p]; [reflexivity| |]; unfold decimal; cbn [Z.to_int DecimalString.NilZero.string_of_int].
  - pose proof (to_uint_not_nil p) as Hd.
    replace (DecimalString.NilZero.string_of_uint (Pos.to_uint p))
      with (DecimalString.NilEmpty.string_of_uint (Pos.to_uint p))
      by (destruct (Pos.to_uint p); [congruence | reflexivity ..]).
    rewrite (proj1 (int_of_text_of_uint _ Hd)), uint_value_of_uint, DecimalPos.Unsigned.of_to.
    reflexivity.
  - pose proof (to_uint_not_nil p) as Hd.
    replace (DecimalString.NilZero.string_of_uint (Pos.to_uint p))
      with (DecimalString.NilEmpty.string_of_uint (Pos.to_uint p))
      by (destruct (Pos.to_uint p); [congruence | reflexivity ..]).
    rewrite (proj2 (int_of_text_of_uint _ Hd)), uint_value_of_uint, DecimalPos.Unsigned.of_to.
    reflexivity.
Qed.

Lemma uint_text_no_comma (d : Decimal.uint) :
  str_contains "," (DecimalString.NilEmpty.string_of_uint d) = false.
Proof.
  induction d as [|d IH|d IH|d IH|d IH|d IH|d IH|d IH|d IH|d IH|d IH];
    [reflexivity | exact IH ..].
Qed.

Lemma decimal_no_comma (n : Z) : str_contains "," (decimal n) = false.
Proof.
  assert (H : forall d, str_contains "," (DecimalString.NilZero.string_of_uint d) = false).
  { intros d. destruct d; [reflexivity | apply (uint_text_no_comma (_ d)) ..]. }
  destruct n as [|p|p]; [reflexivity | apply H | apply H].
Qed.

(** [int(str(n))] is [n] when [n] has no more digits than the limit; beyond
    it [str(n)] raises and [int] refuses the decimal text. *)
Lemma py_int_decimal (n : Z) :
  py_int (decimal n)
  = if (digit_count (decimal n) <=? max_str_digits)%nat then Some n else None.
Proof.
  unfold py_int. rewrite int_of_text_decimal. reflexivity.
Qed.

Lemma py_str_short (n : Z) (w : world) :
  (digit_count (decimal n) <=? max_str_digits)%nat = true ->
  py_str n w = (Ok (decimal n), w, []).
Proof. intros H. unfold py_str. rewrite H. reflexivity. Qed.

(** ** from_string and the commas of the text *)

Lemma length_split (sep : ascii) (s : string) :
  length (split sep s) = S (count_char sep s).
Proof.
  induction s as [|c s IH]; [reflexivity|]. cbn [split count_char].
  destruct (Ascii.eqb c sep).
  - cbn [length]. rewrite IH. reflexivity.
  - destruct (split sep s) as [|f fs]; cbn [length] in *; lia.
Qed.

(** X9. [from_string] raises [ValueError], and changes nothing, on every
    text that does not hold exactly two commas. When it returns, the text
    was "a,nm,em" with no comma inside [a], [nm] or [em] and [a] an integer
    text, and the instance it returns is new, active, of the calling
    class, with that integer, [nm] and [em]; the count went up by 1 and
    nothing was printed. *)
Theorem from_string_two_commas (c : py_class) (data : string) (w : world) :
  (count_char "," data <> 2%nat ->
   User.from_string c data w = (Raise ValueError, w, [])) /\
  (forall v w' out,
     User.from_string c data w = (Ok v, w', out) ->
     exists a nm em n,
       data = a +:+ "," +:+ nm +:+ "," +:+ em /\
       str_contains "," a = false /\ str_contains "," nm = false /\
       str_contains "," em = false /\
       integer_text a n /\
       v = VUser (length (heap w)) /\
       w' = mk_world (heap w ++ [mk_user c n nm em true])
                     (active_user_count w + 1) (clock w) (frames w) /\
       out = []).
Proof.
  pose proof (length_split "," data) as Hlen.
  pose proof (concat_split "," data) as Hcat.
  pose proof (split_fields_no_sep "," data) as Hno.
  unfold User.from_string.
  destruct (split "," data) as [|a [|nm [|em [|x fs]]]]; cbn [length] in Hlen.
  1, 2, 3, 5: split; [intros _; reflexivity | intros v w' out H; discriminate H].
  split.
  - intros H. exfalso. lia.
  - intros v w' out H.
    destruct (py_int a) as [n|] eqn:Hint; [|discriminate].
    rewrite init_run in H. inversion H; subst v w' out.
    inversion Hno as [|? ? Ha Hno1]; subst.
    inversion Hno1 as [|? ? Hnm Hno2]; subst.
    inversion Hno2 as [|? ? Hem _]; subst.
    exists a, nm, em, n. repeat split; auto.
    apply py_int_short_integer_text in Hint. exact (proj1 Hint).
Qed.

Lemma from_string_two_commas_witness :
  User.from_string AdminUser "1,Akash,Kumar,akash@test.com" initial_world
    = (Raise ValueError, initial_world, []) /\
  exists a nm em n,
    "7,x,y" = a +:+ "," +:+ nm +:+ "," +:+ em /\ integer_text a n.
Proof.
  split.
  - apply (proj1 (from_string_two_commas AdminUser "1,Akash,Kumar,akash@test.com"
                    initial_world)).
    cbn. discriminate.
  - destruct (proj2 (from_string_two_commas AdminUser "7,x,y" initial_world)
                _ _ _ eq_refl) as (a & nm & em & n & H1 & _ & _ & _ & H2 & _).
    exists a, nm, em, n. split; [exact H1 | exact H2].
Defined.

(** X10. Parsing what was written: for every integer [n] of at most 4300
    digits and every name and email without a comma, [str(n)] is the
    decimal text of [n], and [from_string] on the text
    [str(n) + "," + nm + "," + em] constructs the user [(n, nm, em)] of the
    calling class, as the constructor itself does. *)
Theorem from_string_of_fields
    (c : py_class) (n : Z) (nm em : string) (w : world)
    (Hn : (digit_count (decimal n) <= max_str_digits)%nat)
    (Hnm : str_contains "," nm = false) (Hem : str_contains "," em = false) :
  py_str n w = (Ok (decimal n), w, []) /\
  User.from_string c (decimal n +:+ "," +:+ nm +:+ "," +:+ em) w
  = User.__init__ c n nm em w.
Proof.
  apply Nat.leb_le in Hn. split; [apply py_str_short, Hn|].
  unfold User.from_string.
  change (decimal n +:+ "," +:+ nm +:+ "," +:+ em)
    with (String.concat "," [decimal n; nm; em]).
  rewrite (split_concat "," [decimal n; nm; em]).
  - rewrite py_int_decimal, Hn. reflexivity.
  - discriminate.
  - repeat constructor; auto using decimal_no_comma.
Qed.

Lemma from_string_of_fields_witness :
  py_str (-305) initial_world = (Ok "-305", initial_world, []) /\
  User.from_string RegularUser ("-305" +:+ "," +:+ "R. K." +:+ "," +:+ "") initial_world
  = User.__init__ RegularUser (-305) "R. K." "" initial_world.
Proof.
  apply (from_string_of_fields RegularUser (-305) "R. K." "" initial_world);
    [apply Nat.leb_le; reflexivity | reflexivity | reflexivity].
Defined.

(** Beyond the limit there is no text to parse: [str(n)] raises, and [int]
    refuses the decimal text of [n]. *)
Lemma from_string_beyond_limit
    (c : py_class) (n : Z) (nm em : string) (w : world) :
  (max_str_digits < digit_count (decimal n))%nat ->
  str_contains "," nm = false -> str_contains "," em = false ->
  py_str n w = (Raise ValueError, w, []) /\
  User.from_string c (decimal n +:+ "," +:+ nm +:+ "," +:+ em) w
  = (Raise ValueError, w, []).
Proof.
  intros Hn Hnm Hem. apply Nat.leb_gt in Hn. split.
  - unfold py_str. rewrite Hn. reflexivity.
  - unfold User.from_string.
    change (decimal n +:+ "," +:+ nm +:+ "," +:+ em)
      with (String.concat "," [decimal n; nm; em]).
    rewrite (split_concat "," [decimal n; nm; em]).
    + rewrite py_int_decimal, Hn. reflexivity.
    + discriminate.
    + repeat constructor; auto using decimal_no_comma.
Qed.

(** ** is_valid_email is a weak test *)

Lemma str_contains_app (c : ascii) (a b : string) :
  str_contains c (a +:+ b) = str_contains c a || str_contains c b.
Proof.
  induction a as [|x a IH]; [reflexivity|].
  rewrite str_app_cons. cbn [str_contains]. destruct (Ascii.eqb x c); [reflexivity|exact IH].
Qed.

Lemma str_contains_nonempty (c : ascii) (s : string) :
  str_contains c s = true -> (1 <= String.length s)%nat.
Proof. destruct s; [discriminate|]. cbn [String.length]. lia. Qed.

(** X15. A text that [is_valid_email] accepts has at least two characters,
    and stays accepted whatever is put before and after it; nothing else
    about the text is checked. *)
Theorem is_valid_email_weak (s a b : string) (Hs : User.is_valid_email s = true) :
  (2 <= String.length s)%nat /\ User.is_valid_email (a +:+ s +:+ b) = true.
Proof.
  unfold User.is_valid_email in *. apply andb_true_iff in Hs as [Hat Hdot]. split.
  - destruct s as [|x s]; [discriminate|]. cbn [str_contains String.length] in *.
    destruct (Ascii.eqb x "@") eqn:E1.
    + apply Ascii.eqb_eq in E1. subst x.
      change (Ascii.eqb "@" ".") with false in Hdot. cbv iota in Hdot.
      apply str_contains_nonempty in Hdot. lia.
    + apply str_contains_nonempty in Hat. lia.
  - rewrite !str_contains_app, Hat, Hdot, !orb_true_r. reflexivity.
Qed.

Lemma is_valid_email_weak_witness :
  (2 <= String.length ".@")%nat /\
  User.is_valid_email ("not an " +:+ ".@" +:+ " address") = true.
Proof. apply (is_valid_email_weak ".@" "not an " " address"). reflexivity. Defined.

(** ** Equality and ordering as relations *)

Lemma eq_lt_run (w : world) (u v : nat) (a b : user) :
  heap w !! u = Some a -> heap w !! v = Some b ->
  User.__eq__ (VUser u) (VUser v) w = (Ok (VBool (user_id a =? user_id b)), w, []) /\
  User.__lt__ (VUser u) (VUser v) w = (Ok (VBool (user_id a <? user_id b)), w, []).
Proof.
  intros Hu Hv. unfold User.__eq__, User.__lt__.
  rewrite !(run_bind_ok _ _ _ _ _ _ (deref_user w u a Hu)).
  rewrite !(run_bind_ok _ _ _ _ _ _ (deref_user w v b Hv)).
  split; reflexivity.
Qed.

Lemma holds_eq (w : world) (u v : nat) (a b : user) :
  heap w !! u = Some a -> heap w !! v = Some b ->
  holds (User.__eq__ (VUser u) (VUser v)) w <-> user_id a = user_id b.
Proof.
  intros Hu Hv. unfold holds. rewrite (proj1 (eq_lt_run w u v a b Hu Hv)). split.
  - intros H. inversion H as [E]. apply Z.eqb_eq, E.
  - intros E. apply Z.eqb_eq in E. rewrite E. reflexivity.
Qed.

Lemma holds_lt (w : world) (u v : nat) (a b : user) :
  heap w !! u = Some a -> heap w !! v = Some b ->
  holds (User.__lt__ (VUser u) (VUser v)) w <-> user_id a < user_id b.
Proof.
  intros Hu Hv. unfold holds. rewrite (proj2 (eq_lt_run w u v a b Hu Hv)). split.
  - intros H. inversion H as [E]. apply Z.ltb_lt, E.
  - intros E. apply Z.ltb_lt in E. rewrite E. reflexivity.
Qed.

(** X11. On users, [==] is an equivalence and [<] a strict order that is
    total up to [==]: for any two users exactly one of [u < v], [u == v]
    and [v < u] is true. Two instances with the same identifier are equal,
    also when they are different instances. *)
Theorem user_order_laws
    (w : world) (u v x : nat) (a b c : user)
    (Hu : heap w !! u = Some a) (Hv : heap w !! v = Some b) (Hx : heap w !! x = Some c) :
  holds (User.__eq__ (VUser u) (VUser u)) w /\
  (holds (User.__eq__ (VUser u) (VUser v)) w -> holds (User.__eq__ (VUser v) (VUser u)) w) /\
  (holds (User.__eq__ (VUser u) (VUser v)) w -> holds (User.__eq__ (VUser v) (VUser x)) w ->
   holds (User.__eq__ (VUser u) (VUser x)) w) /\
  ~ holds (User.__lt__ (VUser u) (VUser u)) w /\
  (holds (User.__lt__ (VUser u) (VUser v)) w -> holds (User.__lt__ (VUser v) (VUser x)) w ->
   holds (User.__lt__ (VUser u) (VUser x)) w) /\
  ((holds (User.__lt__ (VUser u) (VUser v)) w /\
    ~ holds (User.__eq__ (VUser u) (VUser v)) w /\
    ~ holds (User.__lt__ (VUser v) (VUser u)) w) \/
   (~ holds (User.__lt__ (VUser u) (VUser v)) w /\
    holds (User.__eq__ (VUser u) (VUser v)) w /\
    ~ holds (User.__lt__ (VUser v) (VUser u)) w) \/
   (~ holds (User.__lt__ (VUser u) (VUser v)) w /\
    ~ holds (User.__eq__ (VUser u) (VUser v)) w /\
    holds (User.__lt__ (VUser v) (VUser u)) w)) /\
  (user_id a = user_id b -> holds (User.__eq__ (VUser u) (VUser v)) w).
Proof.
  rewrite (holds_eq w u u a a Hu Hu), (holds_eq w u v a b Hu Hv),
    (holds_eq w v u b a Hv Hu), (holds_eq w v x b c Hv Hx), (holds_eq w u x a c Hu Hx),
    (holds_lt w u u a a Hu Hu), (holds_lt w u v a b Hu Hv), (holds_lt w v u b a Hv Hu),
    (holds_lt w v x b c Hv Hx), (holds_lt w u x a c Hu Hx).
  lia.
Qed.

Lemma user_order_laws_witness :
  holds (User.__eq__ (VUser 0) (VUser 1)) two_users /\
  holds (User.__eq__ (VUser 1) (VUser 0)) two_users /\
  ~ holds (User.__lt__ (VUser 0) (VUser 0)) two_users.
Proof.
  destruct (user_order_laws two_users 0 1 2 _ _ _ eq_refl eq_refl eq_refl)
    as (_ & Hsym & _ & Hirr & _ & _ & Hsame).
  split; [exact (Hsame eq_refl)|]. split; [exact (Hsym (Hsame eq_refl)) | exact Hirr].
Defined.

(** ** What a sequence of constructions and deactivations keeps *)

Lemma run_op_persist (op0 : op) (w : world) (r : nat) (o : user) :
  heap w !! r = Some o ->
  exists o', heap (snd (fst (run_op op0 w))) !! r = Some o' /\
    cls o' = cls o /\ user_id o' = user_id o /\ name o' = name o /\
    email o' = email o /\ (active o = false -> active o' = false).
Proof.
  intros Hr. destruct op0 as [c uid nm em | r0]; cbn [run_op].
  - rewrite init_run. cbn [fst snd heap]. exists o.
    rewrite lookup_app_l by (eapply lookup_lt_Some; eauto). auto 10.
  - destruct (heap w !! r0) as [o0|] eqn:Hr0.
    + destruct (active o0) eqn:Ha.
      * rewrite (deactivate_active w r0 o0 Hr0 Ha). cbn [fst snd heap].
        destruct (decide (r0 = r)) as [->|Hne].
        -- rewrite list_lookup_insert_eq by (eapply lookup_lt_Some; eauto).
           assert (o0 = o) as -> by congruence.
           exists (set_active false o). auto 10.
        -- rewrite list_lookup_insert_ne by exact Hne. exists o. auto 10.
      * rewrite (deactivate_inactive w r0 o0 Hr0 Ha). exists o. auto 10.
    + rewrite (deactivate_unallocated w r0 Hr0). exists o. auto 10.
Qed.

Lemma run_op_frame (op0 : op) (w : world) :
  length (heap (snd (fst (run_op op0 w))))
    = (length (heap w) + match op0 with Construct _ _ _ _ => 1 | Deactivate _ => 0 end)%nat /\
  clock (snd (fst (run_op op0 w))) = clock w /\
  frames (snd (fst (run_op op0 w))) = frames w.
Proof.
  destruct op0 as [c uid nm em | r0]; cbn [run_op].
  - rewrite init_run. cbn [fst snd heap clock frames]. rewrite length_app. cbn [length].
    repeat split; first [lia | reflexivity].
  - destruct (heap w !! r0) as [o0|] eqn:Hr0.
    + destruct (active o0) eqn:Ha.
      * rewrite (deactivate_active w r0 o0 Hr0 Ha). cbn [fst snd heap clock frames].
        rewrite length_insert. repeat split; first [lia | reflexivity].
      * rewrite (deactivate_inactive w r0 o0 Hr0 Ha). cbn [fst snd].
        repeat split; first [lia | reflexivity].
    + rewrite (deactivate_unallocated w r0 Hr0). cbn [fst snd].
      repeat split; first [lia | reflexivity].
Qed.

(** X12. Constructions and deactivations never remove an instance and
    never change its class, identifier, name or email; an instance that is
    inactive stays inactive ([deactivate] has no inverse). Each construction
    adds one instance at the end, and neither operation touches the clock
    or the generators. *)
Theorem instances_persist
    (ops : list op) (w : world) (r : nat) (o : user) (Hr : heap w !! r = Some o) :
  (exists o', heap (run_ops ops w) !! r = Some o' /\
     cls o' = cls o /\ user_id o' = user_id o /\ name o' = name o /\
     email o' = email o /\ (active o = false -> active o' = false)) /\
  length (heap (run_ops ops w)) = (length (heap w) + constructions ops)%nat /\
  clock (run_ops ops w) = clock w /\
  frames (run_ops ops w) = frames w.
Proof.
  revert w o Hr. induction ops as [|op0 ops IH]; intros w o Hr; cbn [run_ops].
  - split; [exists o; auto 10|]. cbn [constructions]. repeat split; first [lia | reflexivity].
  - destruct (run_op_persist op0 w r o Hr) as (o1 & Hr1 & E1 & E2 & E3 & E4 & E5).
    destruct (run_op_frame op0 w) as (F1 & F2 & F3).
    destruct (IH _ o1 Hr1) as ((o' & Hr' & G1 & G2 & G3 & G4 & G5) & L & C & F).
    split.
    + exists o'. repeat split; try congruence. auto.
    + rewrite L, C, F, F1, F2, F3.
      destruct op0; cbn [constructions]; repeat split; first [lia | reflexivity].
Qed.

Lemma instances_persist_witness :
  exists o', heap (run_ops sample_ops two_users) !! 2%nat = Some o' /\ active o' = false.
Proof.
  destruct (proj1 (instances_persist sample_ops two_users 2 _ eq_refl))
    as (o' & Hr & _ & _ & _ & _ & Ha).
  exists o'. split; [exact Hr | exact (Ha eq_refl)].
Defined.

Lemma count_active_le (h : list user) : (count_active h <= length h)%nat.
Proof.
  induction h as [|o h IH]; cbn [count_active length]; [lia|].
  destruct (active o); lia.
Qed.

(** X13. From the freshly loaded module, after any sequence of
    constructions and deactivations, the active count is never negative
    and never above the number of instances, which is the number of
    constructions. *)
Theorem active_count_bounds (ops : list op) :
  0 <= active_user_count (run_ops ops initial_world)
    <= Z.of_nat (length (heap (run_ops ops initial_world))) /\
  length (heap (run_ops ops initial_world)) = constructions ops.
Proof.
  rewrite (count_is_active_instances ops initial_world eq_refl).
  pose proof (count_active_le (heap (run_ops ops initial_world))) as Hle.
  split; [lia|].
  assert (Hlen : forall ops w,
    length (heap (run_ops ops w)) = (length (heap w) + constructions ops)%nat).
  { clear. induction ops as [|op0 ops IH]; intros w; cbn [run_ops constructions]; [lia|].
    rewrite IH. destruct (run_op_frame op0 w) as (-> & _ & _).
    destruct op0; cbn [constructions]; lia. }
  rewrite Hlen. reflexivity.
Qed.

(** ** The for loop over a generator *)

Lemma set_frames_twice (fs fs' : list generator) (w : world) :
  set_frames fs (set_frames fs' w) = set_frames fs w.
Proof. reflexivity. Qed.

Lemma for_list_ignores_frames (body : value -> Py unit) :
  ignores_frames body ->
  forall (l : list value) (fs : list generator) (w : world),
    for_list body l (set_frames fs w) =
    let '(r, w', o) := for_list body l w in (r, set_frames fs w', o).
Proof.
  intros Hbody. induction l as [|v l IH]; intros fs w; [reflexivity|].
  cbn [for_list]. rewrite !run_bind, Hbody.
  destruct (body v w) as [[[[]|e|] w1] o1]; try reflexivity.
  rewrite IH. destruct (for_list body l w1) as [[r w2] o2]. reflexivity.
Qed.

Lemma remaining_frame_at (self : UserRepository) (i : nat) :
  remaining (frame_at self i) = (length (users self) - i)%nat.
Proof.
  destruct i as [|i]; cbn [frame_at remaining]; [lia|].
  destruct (bool_decide (S i <= length (users self))%nat) eqn:E; cbn [remaining].
  - reflexivity.
  - apply bool_decide_eq_false_1 in E. lia.
Qed.

(** The loop from position [i] does what the loop over the rest of the
    list does, and moves the frame. *)
Lemma for_rounds_at (self : UserRepository) (g : nat) (body : value -> Py unit) :
  ignores_frames body ->
  forall (n i : nat) (w : world),
    frames w !! g = Some (frame_at self i) ->
    (length (users self) - i < n)%nat ->
    exists fs,
      for_rounds n g body w
      = (fst (fst (for_list body (drop i (users self)) w)),
         set_frames fs (snd (fst (for_list body (drop i (users self)) w))),
         snd (for_list body (drop i (users self)) w)) /\
      (fst (fst (for_list body (drop i (users self)) w)) = Ok tt ->
       fs = <[g := GenFinished]> (frames w)).
Proof.
  intros Hbody. induction n as [|n IH]; intros i w Hg Hn; [lia|].
  cbn [for_rounds]. rewrite (next_at self g i w Hg).
  destruct (users self !! i) as [u|] eqn:Hu.
  - rewrite (drop_S _ _ _ Hu). cbn [for_list]. rewrite !run_bind, Hbody.
    destruct (body u w) as [[[[]|e|] w1] o1].
    + destruct (IH (S i) (set_frames (<[g := frame_at self (S i)]> (frames w)) w1))
        as (fs & Hrun & Hfin).
      { cbn [frames set_frames]. apply list_lookup_insert_eq.
        eapply lookup_lt_Some; eauto. }
      { apply lookup_lt_Some in Hu. lia. }
      rewrite for_list_ignores_frames in Hrun, Hfin by exact Hbody.
      rewrite Hrun.
      destruct (for_list body (drop (S i) (users self)) w1) as [[r w2] o2].
      cbn [fst snd] in *. exists fs. split.
      * rewrite set_frames_twice. reflexivity.
      * intros Hr. rewrite (Hfin Hr). cbn [frames set_frames].
        apply list_insert_insert_eq.
    + eexists. cbn [fst snd]. split; [reflexivity|discriminate].
    + eexists. cbn [fst snd]. split; [reflexivity|discriminate].
  - apply lookup_ge_None in Hu. rewrite drop_ge by lia. cbn [for_list fst snd].
    eexists. split.
    + reflexivity.
    + intros _. cbn [frame_at]. rewrite bool_decide_eq_false_2 by lia. reflexivity.
Qed.

Lemma for_each_at (self : UserRepository) (g i : nat) (body : value -> Py unit) (w : world) :
  ignores_frames body ->
  frames w !! g = Some (frame_at self i) ->
  exists fs,
    for_each g body w
    = (fst (fst (for_list body (drop i (users self)) w)),
       set_frames fs (snd (fst (for_list body (drop i (users self)) w))),
       snd (for_list body (drop i (users self)) w)) /\
    (fst (fst (for_list body (drop i (users self)) w)) = Ok tt ->
     fs = <[g := GenFinished]> (frames w)).
Proof.
  intros Hbody Hg.
  destruct (for_rounds_at self g body Hbody
              (S (length (users self) - i)) i w Hg ltac:(lia)) as (fs & Hrun & Hfin).
  exists fs. split; [|exact Hfin].
  unfold for_each. rewrite run_bind. cbn [get_world]. rewrite Hg, remaining_frame_at.
  rewrite Hrun.
  destruct (for_list body (drop i (users self)) w) as [[r w2] o2]. reflexivity.
Qed.

(** X8. A [for] loop over the generator of a repository, with a body that
    does not touch generators, does what the same loop over the rest of the
    list does: it runs the body on each remaining element once, in order,
    stops at the first exception of the body, and gives the same result,
    console, users, count and clock. When the loop ends normally the
    generator is finished. *)
Theorem for_each_is_for_list
    (self : UserRepository) (g i : nat) (body : value -> Py unit) (w : world)
    (Hbody : ignores_frames body)
    (Hg : frames w !! g = Some (frame_at self i)) :
  let looped := for_each g body w in
  let listed := for_list body (drop i (users self)) w in
  fst (fst looped) = fst (fst listed) /\
  snd looped = snd listed /\
  heap (snd (fst looped)) = heap (snd (fst listed)) /\
  active_user_count (snd (fst looped)) = active_user_count (snd (fst listed)) /\
  clock (snd (fst looped)) = clock (snd (fst listed)) /\
  (fst (fst listed) = Ok tt ->
   frames (snd (fst looped)) = <[g := GenFinished]> (frames w)).
Proof.
  intros looped listed.
  destruct (for_each_at self g i body w Hbody Hg) as (fs & Hrun & Hfin).
  unfold looped, listed. rewrite Hrun. cbn [fst snd heap active_user_count clock frames set_frames].
  repeat split. exact Hfin.
Qed.

Lemma deref_set_frames (v : value) (fs : list generator) (w : world) :
  deref v (set_frames fs w) = let '(r, w', o) := deref v w in (r, set_frames fs w', o).
Proof.
  destruct v as [| b | n | s | r]; try reflexivity.
  unfold deref. rewrite !run_bind. cbn [ref_of mret Py_ret]. unfold load.
  cbn [heap set_frames]. destruct (heap w !! r); reflexivity.
Qed.

Lemma str_user (w : world) (r : nat) (o : user) :
  heap w !! r = Some o ->
  User.__str__ (VUser r) w = (Ok (get_role_of (cls o) +:+ " User: " +:+ name o), w, []).
Proof.
  intros Hr. unfold User.__str__.
  rewrite (run_bind_ok _ _ _ _ _ _ (get_role_user w r o Hr)).
  rewrite (run_bind_ok _ _ _ _ _ _ (deref_user w r o Hr)). reflexivity.
Qed.

Lemma print_streamed_ignores_frames : ignores_frames print_streamed.
Proof.
  intros v fs w. unfold print_streamed, User.__str__, get_role.
  rewrite !run_bind, !deref_set_frames.
  destruct (deref_cases v w) as [(r & o & -> & Hr & H) | [[_ H] | (r & _ & _ & H)]];
    rewrite H; try reflexivity.
  cbn [mret Py_ret]. rewrite !run_bind, !deref_set_frames, H. reflexivity.
Qed.

Lemma for_each_is_for_list_witness :
  snd (for_each 0 print_streamed (snd (fst (stream_users sample_repo two_users))))
  = ["Streamed: ADMIN User: Akash"; "Streamed: REGULAR User: Rahul"].
Proof.
  rewrite (proj1 (proj2 (for_each_is_for_list sample_repo 0 0 print_streamed
                           (snd (fst (stream_users sample_repo two_users)))
                           print_streamed_ignores_frames eq_refl))).
  reflexivity.
Defined.

(** ** main *)

Lemma run_print {B} (s : string) (k : unit -> Py B) (w : world) :
  (print s ≫= k) w = let '(r, w2, o2) := k tt w in (r, w2, s :: o2).
Proof. reflexivity. Qed.

Lemma run_get_world {B} (k : world -> Py B) (w : world) :
  (get_world ≫= k) w = k w w.
Proof.
  rewrite run_bind. cbn [get_world]. destruct (k w w) as [[r w2] o2]. reflexivity.
Qed.

Lemma repr_user (w : world) (r : nat) (o : user) :
  heap w !! r = Some o ->
  (digit_count (decimal (user_id o)) <=? max_str_digits)%nat = true ->
  __repr__ (VUser r) w
  = (Ok (class_name (cls o) +:+ "(" +:+ decimal (user_id o) +:+ ", "
         +:+ name o +:+ ", " +:+ email o +:+ ")"), w, []).
Proof.
  intros Hr Hn. unfold __repr__.
  rewrite (run_bind_ok _ _ _ _ _ _ (deref_user w r o Hr)).
  rewrite (run_bind_ok _ _ _ _ _ _ (py_str_short (user_id o) w Hn)). reflexivity.
Qed.

Lemma run_print_int {B} (label : string) (n : Z) (k : unit -> Py B) (w : world) :
  (print_int label n ≫= k) w =
  if (digit_count (decimal n) <=? max_str_digits)%nat
  then let '(r, w2, o2) := k tt w in (r, w2, (label +:+ " " +:+ decimal n) :: o2)
  else (Raise ValueError, w, [label +:+ " "]).
Proof.
  rewrite run_bind. unfold print_int.
  destruct (digit_count (decimal n) <=? max_str_digits)%nat; reflexivity.
Qed.

Lemma len_user (w : world) (r : nat) (o : user) :
  heap w !! r = Some o ->
  User.__len__ (VUser r) w = (Ok (Z.of_nat (String.length (name o))), w, []).
Proof.
  intros Hr. unfold User.__len__.
  rewrite (run_bind_ok _ _ _ _ _ _ (deref_user w r o Hr)). reflexivity.
Qed.

Lemma call_user (w : world) (r : nat) (o : user) :
  heap w !! r = Some o ->
  User.__call__ (VUser r) w = (Ok ("Callable User " +:+ name o), w, []).
Proof.
  intros Hr. unfold User.__call__.
  rewrite (run_bind_ok _ _ _ _ _ _ (deref_user w r o Hr)). reflexivity.
Qed.

Lemma print_streamed_user (w : world) (r : nat) (o : user) :
  heap w !! r = Some o ->
  print_streamed (VUser r) w
  = (Ok tt, w, ["Streamed: " +:+ get_role_of (cls o) +:+ " User: " +:+ name o]).
Proof.
  intros Hr. unfold print_streamed.
  rewrite (run_bind_ok _ _ _ _ _ _ (str_user w r o Hr)). reflexivity.
Qed.

Section MainProperties.

Context {wall_clock : WallClock}.

(** The lines of [main] up to the count, and the line left unfinished when
    [str] of the count raises. *)
Lemma main_body_run (w : world) :
  call main_body [] w
  = if (digit_count (decimal (active_user_count w + 2)) <=? max_str_digits)%nat
    then (Ok VNone,
          mk_world (heap w ++ [main_admin; main_user]) (active_user_count w + 2)
                   (clock w) (frames w ++ [GenFinished]),
          main_lines (active_user_count w))
    else (Raise ValueError,
          mk_world (heap w ++ [main_admin; main_user]) (active_user_count w + 2)
                   (clock w) (frames w),
          ["ADMIN User: Akash"; "RegularUser(2, Rahul, rahul@test.com)";
           "Active users: "]).
Proof.
  cbn [call main_body].
  rewrite (run_bind_ok _ _ _ _ _ _ (init_run AdminUser 1 "Akash" "akash@test.com" w)).
  change (User.from_string RegularUser "2,Rahul,rahul@test.com")
    with (User.__init__ RegularUser 2 "Rahul" "rahul@test.com").
  rewrite (run_bind_ok _ _ _ _ _ _ (init_run RegularUser 2 "Rahul" "rahul@test.com" _)).
  cbn [heap active_user_count clock frames].
  fold main_admin main_user.
  replace (active_user_count w + 1 + 1) with (active_user_count w + 2) by lia.
  rewrite <- app_assoc. cbn [app].
  set (a := length (heap w)).
  set (u := length (heap w ++ [main_admin])).
  set (w2 := mk_world _ _ _ _).
  assert (Ha : heap w2 !! a = Some main_admin).
  { unfold w2, a. cbn [heap]. apply list_lookup_middle. reflexivity. }
  assert (Hu : heap w2 !! u = Some main_user).
  { unfold w2, u. cbn [heap].
    change (heap w ++ [main_admin; main_user]) with (heap w ++ [main_admin] ++ [main_user]).
    rewrite app_assoc. apply list_lookup_middle. reflexivity. }
  rewrite (run_bind_ok _ _ _ _ _ _ (str_user w2 a _ Ha)), run_print.
  rewrite (run_bind_ok _ _ _ _ _ _ (repr_user w2 u _ Hu eq_refl)), run_print.
  rewrite run_get_world, run_print_int.
  change (active_user_count w2) with (active_user_count w + 2).
  destruct (digit_count (decimal (active_user_count w + 2)) <=? max_str_digits)%nat;
    [|reflexivity].
  rewrite (run_bind_ok _ _ _ _ _ _ (deref_user w2 u _ Hu)), run_print.
  rewrite (run_bind_ok _ _ _ _ _ _ (len_user w2 a _ Ha)), run_print_int.
  change (digit_count (decimal (Z.of_nat (String.length (name main_admin))))
          <=? max_str_digits)%nat with true. cbv iota.
  rewrite (run_bind_ok _ _ _ _ _ _ (call_user w2 a _ Ha)), run_print.
  rewrite (run_bind_ok _ _ _ _ _ _ (stream_users_run _ w2)).
  set (g := length (frames w2)).
  set (w3 := set_frames _ w2).
  assert (Hg : frames w3 !! g = Some (frame_at (mk_repo [VUser a; VUser u]) 0)).
  { unfold w3, g. cbn [frames set_frames frame_at]. apply list_lookup_middle. reflexivity. }
  assert (HL : for_list print_streamed [VUser a; VUser u] w3
               = (Ok tt, w3, ["Streamed: ADMIN User: Akash"; "Streamed: REGULAR User: Rahul"])).
  { cbn [for_list].
    rewrite (run_bind_ok _ _ _ _ _ _ (print_streamed_user w3 a _ Ha)).
    rewrite (run_bind_ok _ _ _ _ _ _ (print_streamed_user w3 u _ Hu)).
    reflexivity. }
  destruct (for_each_at (mk_repo [VUser a; VUser u]) g 0 print_streamed w3
              print_streamed_ignores_frames Hg) as (fs & Hloop & Hfs).
  cbn [users drop] in Hloop, Hfs. rewrite HL in Hloop, Hfs. cbn [fst snd] in Hloop, Hfs.
  rewrite (Hfs eq_refl) in Hloop. clear Hfs fs.
  rewrite (run_bind_ok _ _ _ _ _ _ Hloop).
  set (w4 := set_frames _ w3).
  assert (Hfind : find_user [VUser a; VUser u] 99 w4 = (Ok VNone, w4, ["User not found"])).
  { rewrite (find_user_skip w4 99 (VUser a))
      by (eapply other_user_intro; [exact Ha | discriminate]).
    rewrite (find_user_skip w4 99 (VUser u))
      by (eapply other_user_intro; [exact Hu | discriminate]).
    reflexivity. }
  rewrite (run_bind_ok _ _ _ _ _ _ Hfind), run_print.
  assert (Hdel : call delete_user [VUser a] w4
                 = (Ok VNone, w4, ["[LOG] Executing delete_user"; "User deleted"])).
  { unfold delete_user. rewrite (require_admin_user _ [] w4 a main_admin Ha).
    cbn [cls main_admin]. rewrite log_execution_run. reflexivity. }
  rewrite (run_bind_ok _ _ _ _ _ _ Hdel).
  cbv beta iota. cbn [app mret Py_ret].
  assert (Hw4 : w4 = mk_world (heap w ++ [main_admin; main_user]) (active_user_count w + 2)
                              (clock w) (frames w ++ [GenFinished])).
  { unfold w4, w3, g, w2. cbn [set_frames heap active_user_count clock frames].
    rewrite insert_app_r_alt by lia. rewrite Nat.sub_diag.
    unfold set_frames. cbn [heap active_user_count clock frames app].
    reflexivity. }
  rewrite Hw4. reflexivity.
Qed.

(** X14. [main] runs to the end from every state whose active count, once
    raised by 2, has at most 4300 digits, and with every clock: it returns
    [None], constructs the admin "Akash" and the regular user "Rahul" after
    the users there were, raises the active count by 2, leaves one finished
    generator, reads the clock twice, and prints its twelve lines in order,
    with the new count in the third, and then the timing notice. *)
Theorem main_runs (w : world)
    (Hcount : (digit_count (decimal (active_user_count w + 2)) <= max_str_digits)%nat) :
  call main [] w
  = (Ok VNone,
     mk_world (heap w ++ [main_admin; main_user]) (active_user_count w + 2)
              (S (S (clock w))) (frames w ++ [GenFinished]),
     main_lines (active_user_count w)
     ++ [time_line "main" (reading (clock w)) (reading (S (clock w)))]).
Proof.
  apply Nat.leb_le in Hcount.
  unfold main. rewrite time_execution_run, main_body_run.
  cbn [active_user_count set_clock]. rewrite Hcount. reflexivity.
Qed.

(** With a count beyond that, [print] of the count raises [ValueError]
    after two lines and the label of the third; the error leaves [main]
    through the timing wrapper, which prints no notice. *)
Lemma main_count_too_long (w : world) :
  (max_str_digits < digit_count (decimal (active_user_count w + 2)))%nat ->
  call main [] w
  = (Raise ValueError,
     mk_world (heap w ++ [main_admin; main_user]) (active_user_count w + 2)
              (S (clock w)) (frames w),
     ["ADMIN User: Akash"; "RegularUser(2, Rahul, rahul@test.com)"; "Active users: "]).
Proof.
  intros Hcount. apply Nat.leb_gt in Hcount.
  unfold main. rewrite time_execution_run, main_body_run.
  cbn [active_user_count set_clock]. rewrite Hcount. reflexivity.
Qed.

End MainProperties.

Lemma main_runs_witness :
  call (@main sample_clock) [] two_users
  = (Ok VNone,
     mk_world (heap two_users ++ [main_admin; main_user]) 4 2 [GenFinished],
     main_lines 2 ++ ["[TIME] main took 1.0000s"]).
Proof.
  apply (@main_runs sample_clock two_users). apply Nat.leb_le. reflexivity.
Defined.

Example main_from_start :
  call (@main sample_clock) [] initial_world
  = (Ok VNone,
     mk_world [main_admin; main_user] 2 2 [GenFinished],
     ["ADMIN User: Akash"; "RegularUser(2, Rahul, rahul@test.com)";
      "Active users: 2"; "Email valid: True"; "Name length: 5";
      "Callable: Callable User Akash"; "Streamed: ADMIN User: Akash";
      "Streamed: REGULAR User: Rahul"; "User not found";
      "Config: UserSystem v1.0.0"; "[LOG] Executing delete_user";
      "User deleted"; "[TIME] main took 1.0000s"]).
Proof. reflexivity. Qed.

(** ** Traversals side by side *)

Lemma next_other_frames (g g' : nat) (w : world) :
  g' <> g -> frames (snd (fst (next g w))) !! g' = frames w !! g'.
Proof.
  intros Hne. unfold next. rewrite run_bind. cbn [get_world].
  assert (Hres : forall l i, frames (snd (fst (resume g l i w))) !! g' = frames w !! g').
  { intros l i. rewrite resume_run.
    destruct (l !! i); cbn [fst snd frames set_frames];
      apply list_lookup_insert_ne; congruence. }
  destruct (frames w !! g) as [[self | l i |]|]; try reflexivity.
  - specialize (Hres (users self) 0%nat).
    destruct (resume g (users self) 0 w) as [[res w1] o1]. exact Hres.
  - specialize (Hres l i). destruct (resume g l i w) as [[res w1] o1]. exact Hres.
Qed.

Lemma advance_other_frames (g g' k : nat) : forall w : world,
  g' <> g -> frames (advance k g w) !! g' = frames w !! g'.
Proof.
  induction k as [|k IH]; intros w Hne; [reflexivity|]. cbn [advance].
  rewrite IH by exact Hne. apply next_other_frames, Hne.
Qed.

(** X17. Traversals of a repository do not disturb one another: however
    far another generator is advanced, a generator that stood at position
    [i] still yields exactly the elements from index [i] on, in order. *)
Theorem traversals_independent
    (self : UserRepository) (g g' i k fuel : nat) (w : world)
    (Hne : g' <> g)
    (Hg : frames w !! g' = Some (frame_at self i))
    (Hfuel : (length (users self) - i < fuel)%nat) :
  list_of_generator fuel g' (advance k g w)
  = Some (Ok (drop i (users self)),
          set_frames (<[g' := GenFinished]> (frames (advance k g w))) (advance k g w),
          []).
Proof.
  apply (list_of_generator_at self g' fuel i); [|exact Hfuel].
  rewrite advance_other_frames by exact Hne. exact Hg.
Qed.

Lemma traversals_independent_witness :
  exists w',
    list_of_generator 3 1 (advance 5 0 two_streams) = Some (Ok [VUser 0; VUser 1], w', []).
Proof.
  eexists.
  apply (traversals_independent sample_repo 0 1 0 5 3 two_streams);
    [discriminate | reflexivity | cbn; lia].
Defined.

(** ** deactivate, composed *)

Lemma deactivate_state (v : value) (w : world) :
  snd (fst (User.deactivate v w)) =
  match v with
  | VUser r =>
      match heap w !! r with
      | Some o =>
          if active o
          then mk_world (<[r := set_active false o]> (heap w))
                        (active_user_count w - 1) (clock w) (frames w)
          else w
      | None => w
      end
  | _ => w
  end.
Proof.
  destruct v as [| b | n | s | r]; try reflexivity.
  destruct (heap w !! r) as [o|] eqn:Hr.
  - destruct (active o) eqn:Ha.
    + rewrite (deactivate_active w r o Hr Ha). reflexivity.
    + rewrite (deactivate_inactive w r o Hr Ha). reflexivity.
  - rewrite (deactivate_unallocated w r Hr). reflexivity.
Qed.

(** X16. [deactivate] twice is [deactivate] once, and deactivations
    commute: deactivating two instances in either order gives the same
    state. This holds for every argument, a user or not. *)
Theorem deactivate_idempotent_commutes (v1 v2 : value) (w : world) :
  snd (fst (User.deactivate v1 (snd (fst (User.deactivate v1 w)))))
    = snd (fst (User.deactivate v1 w)) /\
  snd (fst (User.deactivate v2 (snd (fst (User.deactivate v1 w)))))
    = snd (fst (User.deactivate v1 (snd (fst (User.deactivate v2 w))))).
Proof.
  split.
  - rewrite !deactivate_state. destruct v1 as [| b | n | s | r]; try reflexivity.
    destruct (heap w !! r) as [o|] eqn:Hr; [|rewrite Hr; reflexivity].
    destruct (active o) eqn:Ha; [|rewrite Hr, Ha; reflexivity].
    cbn [heap]. rewrite list_lookup_insert_eq by (eapply lookup_lt_Some; eauto).
    reflexivity.
  - rewrite !deactivate_state.
    destruct v1 as [| b1 | n1 | s1 | r1]; destruct v2 as [| b2 | n2 | s2 | r2];
      try reflexivity.
    destruct (decide (r1 = r2)) as [->|Hne]; [reflexivity|].
    destruct (heap w !! r1) as [o1|] eqn:H1; destruct (heap w !! r2) as [o2|] eqn:H2;
      try (destruct (active o1) eqn:A1); try (destruct (active o2) eqn:A2);
      cbn [heap active_user_count clock frames];
      rewrite ?list_lookup_insert_ne by congruence;
      rewrite ?H1, ?H2, ?A1, ?A2; try reflexivity.
    cbn [heap active_user_count clock frames]. f_equal.
    apply list_insert_insert_ne. congruence.
Qed.
